(** * update_deps: a shallow embedding of src/build_tools/update_deps.py

    The script fetches third-party archives into a cache directory, verifies
    them by size and SHA-256, extracts the ninja executable and runs two
    external provisioning commands.  All of it is I/O, so the embedding is an
    exception-and-state monad over a world made of a file system, a log of
    the operations the script performed, and a counter of clock readings.

    What the operating system, the network and the libraries decide is
    gathered in a [Host] record (platform identity, the response to an HTTP
    request, the SHA-256 function, the zip decoder, what a subprocess does).
    The functions below are parametric in it.

    Scope of the model:
    - a file-system operation fails for structural reasons only (a missing
      entry, a directory where a file is needed or the reverse); permission
      errors, full disks and symbolic links are left out;
    - a SHA-256 object is the list of the bytes fed to it, and its digest is
      the host's hash of their concatenation, as hashlib documents;
    - [main] starts from the parsed flags; argparse itself is not modelled;
    - the log records each call the script makes on its environment, in
      order; reading the clock and the terminal size is not logged. *)

From Stdlib Require Import ZArith String Ascii List Bool Lia.
From Stdlib.Strings Require Import Byte.
From stdpp Require Import base option list strings pretty gmap.

Local Open Scope Z_scope.
Local Open Scope string_scope.

(** ** Paths, files and the world *)

(** A [pathlib.Path] is its list of components below the root. *)
Abbreviation Path := (list string).

(** [Path.joinpath] for one relative segment without a separator in it:
    pathlib drops an empty segment and a single dot. *)
Definition joinpath (p : Path) (seg : string) : Path :=
  if decide (seg = "" ∨ seg = ".") then p else (p ++ [seg])%list.

Definition parent (p : Path) : Path := removelast p.

Inductive Node :=
| File (content : list byte) (file_mode : Z)
| Dir (dir_size : Z) (dir_mode : Z).

Definition st_size (n : Node) : Z :=
  match n with
  | File c _ => Z.of_nat (length c)
  | Dir s _ => s
  end.

Definition st_mode (n : Node) : Z :=
  match n with
  | File _ m => m
  | Dir _ m => m
  end.

(** Every operation the script asks of its environment is logged. *)
Inductive Event :=
| EvExists (p : Path)                       (* Path.exists *)
| EvStat (p : Path)                         (* Path.stat *)
| EvRead (p : Path)                         (* open(p, 'rb') and read to the end *)
| EvUnlink (p : Path)                       (* Path.unlink *)
| EvMkdir (p : Path)                        (* Path.mkdir(parents, exist_ok) *)
| EvHttpGet (u : string)                    (* requests.get *)
| EvCreate (p : Path)                       (* open(p, 'wb') *)
| EvWrite (p : Path) (chunk : list byte)    (* f.write *)
| EvZipExtract (src : Path) (member : string) (dest : Path)
| EvChmod (p : Path) (mode : Z)
| EvShell (command : string)                (* subprocess.run(shell=True) *)
| EvPopen (args : list string) (cwd : Path) (* subprocess.Popen *)
| EvPrint (msg : string)                    (* print *)
| EvStdout (text : string).                 (* sys.stdout.write *)

Inductive Exn :=
| RuntimeError (msg : string)
| FileNotFoundError (p : Path)
| IsADirectoryError (p : Path)
| NotADirectoryError (p : Path)
| FileExistsError (p : Path)
| RequestException (u : string)
| BadZipFile (p : Path)
| KeyError (name : string)
| CalledProcessError (command : string) (code : Z)
| ChildProcessError (msg : string).

Record World := mkWorld {
  fs : gmap Path Node;
  trace : list Event;
  ticks : nat
}.

(** The body of an HTTP response as [iter_content] hands it out; [broken]
    tells that the connection fails after the last of these chunks. *)
Record Response := mkResponse {
  iter_content : list (list byte);
  broken : bool
}.

Record Host := mkHost {
  os_name : string;                          (* os.name *)
  uname_sysname : string;                    (* os.uname()[0] *)
  ABS_MOZC_SRC_DIR : Path;
  path_str : Path -> string;                 (* str(path) *)
  sha256_hexdigest : list byte -> string;    (* hashlib.sha256(b).hexdigest() *)
  requests_get : string -> option Response;  (* None: the request raises *)
  zip_members : list byte -> option (list (string * list byte));
  shell_run : string -> gmap Path Node -> gmap Path Node * Z;
  popen_run : list string -> Path -> gmap Path Node
              -> option (gmap Path Node * Z);
  stdout_isatty : bool;
  terminal_columns : nat;
  time_ns : nat -> Z;                        (* the n-th reading of the clock *)
  new_file_mode : Z;
  new_dir_size : Z;
  new_dir_mode : Z;
  str_hash : string -> Z                     (* hash() of a str *)
}.

(** ** The monad: state, log and exceptions *)

Inductive Res (A : Type) :=
| Ok (a : A)
| Raise (e : Exn).
Arguments Ok {A} a.
Arguments Raise {A} e.

Definition M (A : Type) : Type := World -> Res A * World.

Definition ret {A} (a : A) : M A := fun w => (Ok a, w).

Definition raise {A} (e : Exn) : M A := fun w => (Raise e, w).

Definition bind {A B} (m : M A) (k : A -> M B) : M B :=
  fun w =>
    match m w with
    | (Ok a, w') => k a w'
    | (Raise e, w') => (Raise e, w')
    end.

Notation "x <- c1 ;; c2" := (bind c1 (fun x => c2))
  (at level 100, c1 at next level, right associativity).
Notation "c1 ;; c2" := (bind c1 (fun _ => c2))
  (at level 100, right associativity).

(** A [with] block: the exit action runs whether or not the body raised. *)
Definition with_exit {A} (body : M A) (exit : M unit) : M A :=
  fun w =>
    match body w with
    | (r, w') =>
        match exit w' with
        | (Ok _, w'') => (r, w'')
        | (Raise e, w'') => (Raise e, w'')
        end
    end.

Definition emit (e : Event) : M unit :=
  fun w => (Ok tt, mkWorld (fs w) (trace w ++ [e])%list (ticks w)).

Definition get_fs : M (gmap Path Node) := fun w => (Ok (fs w), w).

Definition put_fs (f : gmap Path Node) : M unit :=
  fun w => (Ok tt, mkWorld f (trace w) (ticks w)).

Fixpoint for_each {A} (body : A -> M unit) (l : list A) : M unit :=
  match l with
  | [] => ret tt
  | x :: rest => body x ;; for_each body rest
  end.

(** ** File-system primitives *)

Definition is_dir (f : gmap Path Node) (p : Path) : bool :=
  match p with
  | [] => true
  | _ => match f !! p with
         | Some (Dir _ _) => true
         | _ => false
         end
  end.

Definition path_exists (p : Path) : M bool :=
  emit (EvExists p) ;;
  f <- get_fs ;;
  ret (bool_decide (is_Some (f !! p))).

Definition path_stat (p : Path) : M Node :=
  emit (EvStat p) ;;
  f <- get_fs ;;
  match f !! p with
  | Some n => ret n
  | None => raise (FileNotFoundError p)
  end.

Definition read_bytes (p : Path) : M (list byte) :=
  emit (EvRead p) ;;
  f <- get_fs ;;
  match f !! p with
  | Some (File c _) => ret c
  | Some (Dir _ _) => raise (IsADirectoryError p)
  | None => raise (FileNotFoundError p)
  end.

Definition path_unlink (p : Path) : M unit :=
  emit (EvUnlink p) ;;
  f <- get_fs ;;
  match f !! p with
  | Some (File _ _) => put_fs (delete p f)
  | Some (Dir _ _) => raise (IsADirectoryError p)
  | None => raise (FileNotFoundError p)
  end.

(** [Path.mkdir(parents=True, exist_ok=True)], on the path whose components
    in reverse order are [rp]: [os.mkdir] is tried first; a directory already
    there is accepted, a file is not; a missing parent is created by the same
    procedure, and then the directory itself.  The root is always there. *)
Fixpoint mkdir_parents (dsize dmode : Z) (rp : list string)
    (f : gmap Path Node) : Exn + gmap Path Node :=
  match rp with
  | [] => inr f
  | seg :: rp' =>
      let p := rev (seg :: rp') in
      match f !! p with
      | Some (Dir _ _) => inr f
      | Some (File _ _) => inl (FileExistsError p)
      | None =>
          if is_dir f (rev rp') then inr (<[p := Dir dsize dmode]> f)
          else
            match f !! rev rp' with
            | Some _ => inl (NotADirectoryError p)
            | None =>
                match mkdir_parents dsize dmode rp' f with
                | inl e => inl e
                | inr f' => inr (<[p := Dir dsize dmode]> f')
                end
            end
      end
  end.

(** [open(p, 'wb')]: an existing file is truncated and keeps its mode, a new
    one needs its parent directory. *)
Definition fs_open_wb (fmode : Z) (p : Path) (f : gmap Path Node)
    : Exn + gmap Path Node :=
  match f !! p with
  | Some (File _ m) => inr (<[p := File [] m]> f)
  | Some (Dir _ _) => inl (IsADirectoryError p)
  | None =>
      if is_dir f (parent p) then inr (<[p := File [] fmode]> f)
      else inl (FileNotFoundError p)
  end.

(** [f.write(chunk)] on a file opened for writing: the bytes are appended. *)
Definition fs_write (p : Path) (chunk : list byte) (f : gmap Path Node)
    : Exn + gmap Path Node :=
  match f !! p with
  | Some (File c m) => inr (<[p := File (c ++ chunk)%list m]> f)
  | Some (Dir _ _) => inl (IsADirectoryError p)
  | None => inl (FileNotFoundError p)
  end.

Definition update_fs (op : gmap Path Node -> Exn + gmap Path Node) : M unit :=
  fun w =>
    match op (fs w) with
    | inl e => (Raise e, w)
    | inr f' => (Ok tt, mkWorld f' (trace w) (ticks w))
    end.

Definition open_wb (fmode : Z) (p : Path) : M unit :=
  emit (EvCreate p) ;;
  update_fs (fs_open_wb fmode p).

Definition file_write (p : Path) (chunk : list byte) : M unit :=
  emit (EvWrite p chunk) ;;
  update_fs (fs_write p chunk).

Definition path_chmod (p : Path) (mode : Z) : M unit :=
  emit (EvChmod p mode) ;;
  update_fs (fun f =>
    match f !! p with
    | Some (File c _) => inr (<[p := File c mode]> f)
    | Some (Dir s _) => inr (<[p := Dir s mode]> f)
    | None => inl (FileNotFoundError p)
    end).

(** ** ArchiveInfo *)

Record ArchiveInfo := mkArchiveInfo {
  url : string;
  size : Z;
  sha256 : string
}.

(** [s.split('/')]: never empty, one more piece than there are slashes. *)
Fixpoint split_slash (s : string) : list string :=
  match s with
  | EmptyString => [EmptyString]
  | String c rest =>
      if Ascii.eqb c "/" then EmptyString :: split_slash rest
      else match split_slash rest with
           | piece :: pieces => String c piece :: pieces
           | [] => [String c EmptyString]
           end
  end.

(** [ArchiveInfo.filename]: [self.url.split('/')[-1]]. *)
Definition filename (a : ArchiveInfo) : string :=
  List.last (split_slash (url a)) EmptyString.

(** The [__eq__] that [@dataclasses.dataclass] generates: the tuples of all
    fields are compared.  The class overrides [__hash__] only. *)
Definition ArchiveInfo_eq (a b : ArchiveInfo) : bool :=
  String.eqb (url a) (url b) && (size a =? size b)%Z
  && String.eqb (sha256 a) (sha256 b).

(** [ArchiveInfo.__hash__]: [hash(self.sha256)]. *)
Definition ArchiveInfo_hash (h : Host) (a : ArchiveInfo) : Z :=
  str_hash h (sha256 a).

(** [x in l] on a Python list: some element is [x] itself or equals it with
    [__eq__].  An ArchiveInfo equals itself, so the identity test adds
    nothing here. *)
Definition list_contains (l : list ArchiveInfo) (x : ArchiveInfo) : bool :=
  existsb (fun e => ArchiveInfo_eq e x) l.

Definition QT6 : ArchiveInfo := {|
  url := "https://download.qt.io/archive/qt/6.8/6.8.0/submodules/qtbase-everywhere-src-6.8.0.tar.xz";
  size := 49819628;
  sha256 := "1bad481710aa27f872de6c9f72651f89a6107f0077003d0ebfcc9fd15cba3c75"
|}.

Definition NINJA_MAC : ArchiveInfo := {|
  url := "https://github.com/ninja-build/ninja/releases/download/v1.11.0/ninja-mac.zip";
  size := 277298;
  sha256 := "21915277db59756bfc61f6f281c1f5e3897760b63776fd3d360f77dd7364137f"
|}.

Definition NINJA_WIN : ArchiveInfo := {|
  url := "https://github.com/ninja-build/ninja/releases/download/v1.11.0/ninja-win.zip";
  size := 285411;
  sha256 := "d0ee3da143211aa447e750085876c9b9d7bcdd637ab5b2c5b41349c617f22f3b"
|}.

Definition TIMEOUT : Z := 600.

(** ** The script *)

Section Script.

Variable host : Host.

Definition ABS_THIRD_PARTY_DIR : Path :=
  joinpath (ABS_MOZC_SRC_DIR host) "third_party".

Definition CACHE_DIR : Path :=
  joinpath (ABS_MOZC_SRC_DIR host) "third_party_cache".

Definition print (msg : string) : M unit := emit (EvPrint msg).

Definition stdout_write (text : string) : M unit := emit (EvStdout text).

Definition read_clock : M Z :=
  fun w => (Ok (time_ns host (ticks w)),
            mkWorld (fs w) (trace w) (S (ticks w))).

(** [Path.mkdir(parents=True, exist_ok=True)] *)
Definition path_mkdir (p : Path) : M unit :=
  emit (EvMkdir p) ;;
  update_fs (mkdir_parents (new_dir_size host) (new_dir_mode host) (rev p)).

(** [get_sha256]: [hashlib.file_digest] and its fallback both hash the whole
    content of the file. *)
Definition get_sha256 (path : Path) : M string :=
  content <- read_bytes path ;;
  ret (sha256_hexdigest host content).

(** *** ProgressPrinter *)

Definition CR : string := String (ascii_of_nat 13) EmptyString.

Fixpoint spaces (n : nat) : string :=
  match n with
  | O => EmptyString
  | S k => String " " (spaces k)
  end.

Inductive Printer :=
| NoOpImpl
| Impl (last_output_time_ns : Z).

Definition ProgressPrinter_enter : M Printer :=
  if stdout_isatty host then
    now <- read_clock ;;
    ret (Impl now)
  else ret NoOpImpl.

Definition print_line (pr : Printer) (msg : string) : M Printer :=
  match pr with
  | NoOpImpl => ret NoOpImpl
  | Impl last =>
      let colmuns := terminal_columns host in
      now <- read_clock ;;
      if (now - last <? 25000000)%Z then ret (Impl last)
      else
        let msg1 := msg +:+ spaces (colmuns - String.length msg) in
        let msg2 := String.substring 0 colmuns msg1 +:+ CR in
        stdout_write msg2 ;;
        ret (Impl now)
  end.

(** [__exit__]: the cleaner exists exactly when [__enter__] built an [Impl]. *)
Definition ProgressPrinter_exit (entered : Printer) : M unit :=
  match entered with
  | NoOpImpl => ret tt
  | Impl _ => stdout_write (spaces (terminal_columns host) +:+ CR)
  end.

(** *** download *)

Definition removing_msg (path : Path) : string :=
  "dryrun: Verification failed. removing " +:+ path_str host path.

Definition download_msg (u : string) (path : Path) : string :=
  "Download " +:+ u +:+ " to " +:+ path_str host path.

Definition size_mismatch_msg (archive : ArchiveInfo) (saved : Z) : string :=
  filename archive +:+ " size mismatch." +:+
  " expected=" +:+ pretty (size archive) +:+ " actual=" +:+ pretty saved.

Definition sha256_mismatch_msg (archive : ArchiveInfo) (actual : string)
    : string :=
  filename archive +:+ " sha256 mismatch." +:+
  " expected=" +:+ sha256 archive +:+ " actual=" +:+ actual.

(** The loop over [r.iter_content]: lines 154-158.  [hasher] holds the bytes
    fed to the SHA-256 object so far; [hexdigest] hashes their concatenation. *)
Fixpoint write_chunks (archive : ArchiveInfo) (path : Path)
    (chunks : list (list byte)) (brk : bool)
    (saved : Z) (hasher : list byte) (printer : Printer)
    : M (Z * list byte) :=
  match chunks with
  | [] =>
      if brk then raise (RequestException (url archive))
      else ret (saved, hasher)
  | chunk :: rest =>
      file_write path chunk ;;
      let hasher' := (hasher ++ chunk)%list in
      let saved' := saved + Z.of_nat (length chunk) in
      printer' <- print_line printer
        (filename archive +:+ ": " +:+ pretty saved' +:+ "/" +:+
         pretty (size archive)) ;;
      write_chunks archive path rest brk saved' hasher' printer'
  end.

(** Lines 151-158: the three nested [with] blocks. *)
Definition stream (archive : ArchiveInfo) (path : Path) : M (Z * list byte) :=
  emit (EvHttpGet (url archive)) ;;
  match requests_get host (url archive) with
  | None => raise (RequestException (url archive))
  | Some r =>
      printer <- ProgressPrinter_enter ;;
      with_exit
        (open_wb (new_file_mode host) path ;;
         write_chunks archive path (iter_content r) (broken r) 0 [] printer)
        (ProgressPrinter_exit printer)
  end.

(** Lines 159-169: the two integrity checks after the stream completed. *)
Definition verify (archive : ArchiveInfo) (saved : Z) (hasher : list byte)
    : M unit :=
  if negb (saved =? size archive)%Z then
    raise (RuntimeError (size_mismatch_msg archive saved))
  else
    let actual_sha256 := sha256_hexdigest host hasher in
    if negb (String.eqb actual_sha256 (sha256 archive)) then
      raise (RuntimeError (sha256_mismatch_msg archive actual_sha256))
    else ret tt.

(** Lines 144-169: what [download] does once there is no valid cache entry. *)
Definition fetch (archive : ArchiveInfo) (path : Path) (dryrun : bool)
    : M unit :=
  if dryrun then print (download_msg (url archive) path)
  else
    path_mkdir CACHE_DIR ;;
    r <- stream archive path ;;
    verify archive (fst r) (snd r).

Definition archive_path (archive : ArchiveInfo) : Path :=
  joinpath CACHE_DIR (filename archive).

Definition download (archive : ArchiveInfo) (dryrun : bool) : M unit :=
  let path := archive_path archive in
  ex <- path_exists path ;;
  if ex then
    st <- path_stat path ;;
    valid <- (if (st_size st =? size archive)%Z then
                digest <- get_sha256 path ;;
                ret (String.eqb digest (sha256 archive))
              else ret false) ;;
    if valid then ret tt
    else
      (if dryrun then print (removing_msg path) else path_unlink path) ;;
      fetch archive path dryrun
  else fetch archive path dryrun.

(** *** extract_ninja *)

Definition is_windows : bool := String.eqb (os_name host) "nt".

Definition is_mac : bool :=
  String.eqb (os_name host) "posix"
  && String.eqb (uname_sysname host) "Darwin".

Definition S_IXUSR : Z := 64.

Fixpoint zip_find (name : string) (members : list (string * list byte))
    : option (list byte) :=
  match members with
  | [] => None
  | (n, data) :: rest => if String.eqb n name then Some data
                         else zip_find name rest
  end.

(** [zipfile.ZipFile(src)]: the file is read and its directory decoded. *)
Definition zip_open (src : Path) : M (list (string * list byte)) :=
  content <- read_bytes src ;;
  match zip_members host content with
  | None => raise (BadZipFile src)
  | Some members => ret members
  end.

(** [z.extract(member, path=dest)] for a member name without a directory
    part: the destination is created, with its parents, when it does not
    exist; the target file is opened with 'wb' and the member copied into it.
    Nothing else under [dest] is touched. *)
Definition fs_zip_extract (members : list (string * list byte))
    (member : string) (dest : Path) (f : gmap Path Node)
    : Exn + gmap Path Node :=
  match zip_find member members with
  | None => inl (KeyError member)
  | Some data =>
      let target := joinpath dest member in
      match (match f !! dest with
             | None => mkdir_parents (new_dir_size host) (new_dir_mode host)
                         (rev dest) f
             | Some _ => inr f
             end) with
      | inl e => inl e
      | inr f1 =>
          match fs_open_wb (new_file_mode host) target f1 with
          | inl e => inl e
          | inr f2 => fs_write target data f2
          end
      end
  end.

(** Lines 250-251. *)
Definition zip_extract (src : Path) (member : string) (dest : Path)
    : M unit :=
  members <- zip_open src ;;
  emit (EvZipExtract src member dest) ;;
  update_fs (fs_zip_extract members member dest).

Definition ninja_dest : Path := joinpath ABS_THIRD_PARTY_DIR "ninja".

Definition rmtree_msg (dest : Path) : string :=
  "dryrun: shutil.rmtree(r'" +:+ path_str host dest +:+ "')".

Definition extracting_msg (exe : string) (src dest : Path) : string :=
  "dryrun: Extracting " +:+ exe +:+ " from " +:+ path_str host src +:+
  " into " +:+ path_str host dest.

Definition extract_ninja (dryrun : bool) : M unit :=
  let dest := ninja_dest in
  match (if is_mac then Some (NINJA_MAC, "ninja")
         else if is_windows then Some (NINJA_WIN, "ninja.exe")
         else None) with
  | None => ret tt
  | Some (archive, exe) =>
      let src := joinpath CACHE_DIR (filename archive) in
      if dryrun then
        ex <- path_exists dest ;;
        (if ex then print (rmtree_msg dest) else ret tt) ;;
        print (extracting_msg exe src dest)
      else
        zip_extract src exe dest ;;
        if is_mac then
          let ninja := joinpath dest exe in
          st <- path_stat ninja ;;
          path_chmod ninja (Z.lor (st_mode st) S_IXUSR)
        else ret tt
  end.

(** *** The external provisioners *)

(** [subprocess.run(command, shell=True, check=True)] *)
Definition subprocess_run (command : string) : M unit :=
  emit (EvShell command) ;;
  f <- get_fs ;;
  let '(f', code) := shell_run host command f in
  put_fs f' ;;
  if (code =? 0)%Z then ret tt
  else raise (CalledProcessError command code).

Definition submodule_command : string :=
  String.concat " " ["git"; "submodule"; "update"; "--init"; "--recursive"].

Definition subprocess_run_msg (command : string) : string :=
  "dryrun: subprocess.run(" +:+ command +:+ ", shell=True, check=True)".

Definition update_submodules (dryrun : bool) : M unit :=
  let command := submodule_command in
  if dryrun then print (subprocess_run_msg command)
  else subprocess_run command.

(** [repr] of a list of strings that hold no quote, backslash or control
    character, as in ['dotnet', 'tool', 'restore']. *)
Definition repr_list (l : list string) : string :=
  "[" +:+ String.concat ", " (map (fun s => "'" +:+ s +:+ "'") l) +:+ "]".

Definition exec_command (args : list string) (cwd : Path) : M unit :=
  emit (EvPopen args cwd) ;;
  f <- get_fs ;;
  match popen_run host args cwd f with
  | None => raise (FileNotFoundError (firstn 1 args))
  | Some (f', exitcode) =>
      put_fs f' ;;
      if negb (exitcode =? 0)%Z then
        raise (ChildProcessError ("Failed to execute " +:+ repr_list args))
      else ret tt
  end.

Definition dotnet_args : list string := ["dotnet"; "tool"; "restore"].

Definition exec_command_msg (args : list string) (cwd : Path) : string :=
  "dryrun: exec_command(" +:+ repr_list args +:+ ", cwd=" +:+
  path_str host cwd +:+ ")".

Definition restore_dotnet_tools (dryrun : bool) : M unit :=
  let args := dotnet_args in
  if dryrun then print (exec_command_msg args (ABS_MOZC_SRC_DIR host))
  else exec_command args (ABS_MOZC_SRC_DIR host).

End Script.

(** *** main *)

(** The namespace [parser.parse_args()] returns: six store_true flags. *)
Record Args := mkArgs {
  dryrun : bool;
  noninja : bool;
  noqt : bool;
  nowix : bool;
  nosubmodules : bool;
  cache_only : bool
}.

Section Main.

Variable host : Host.

(** Lines 322-329: the archives to fetch on this platform. *)
Definition select_archives (args : Args) : list ArchiveInfo :=
  ((if negb (noqt args) && (is_windows host || is_mac host)
    then [QT6] else []) ++
   (if negb (noninja args) then
      if is_mac host then [NINJA_MAC]
      else if is_windows host then [NINJA_WIN]
      else []
    else []))%list.

Definition main (args : Args) : M unit :=
  let archives := select_archives args in
  for_each (fun archive => download host archive (dryrun args)) archives ;;
  if cache_only args then ret tt
  else
    (if negb (nowix args) && is_windows host
     then restore_dotnet_tools host (dryrun args) else ret tt) ;;
    (if list_contains archives NINJA_WIN || list_contains archives NINJA_MAC
     then extract_ninja host (dryrun args) else ret tt) ;;
    (if negb (nosubmodules args)
     then update_submodules host (dryrun args) else ret tt).

End Main.

(** ** Vocabulary of the statements *)

(** What a run from [w] to [w'] added to the log. *)
Definition new_events (w w' : World) : list Event :=
  drop (length (trace w)) (trace w').

Definition is_observation (e : Event) : bool :=
  match e with
  | EvExists _ | EvStat _ | EvRead _ => true
  | _ => false
  end.

Definition is_network (e : Event) : bool :=
  match e with
  | EvHttpGet _ => true
  | _ => false
  end.

Definition is_fs_mutation (e : Event) : bool :=
  match e with
  | EvUnlink _ | EvMkdir _ | EvCreate _ | EvWrite _ _
  | EvZipExtract _ _ _ | EvChmod _ _ => true
  | _ => false
  end.

Definition is_subprocess (e : Event) : bool :=
  match e with
  | EvShell _ | EvPopen _ _ => true
  | _ => false
  end.

Definition is_print (e : Event) : bool :=
  match e with
  | EvPrint _ => true
  | _ => false
  end.

Definition is_stream_output (e : Event) : bool :=
  match e with
  | EvWrite _ _ | EvStdout _ => true
  | _ => false
  end.

(** The operations of the steps after the downloads: the restore, the
    extraction and the submodule sync. *)
Definition is_provisioning (e : Event) : bool :=
  match e with
  | EvPopen _ _ | EvShell _ | EvZipExtract _ _ _ | EvChmod _ _ => true
  | _ => false
  end.

(** The messages by which a dry run announces those steps. *)
Definition provisioning_message (host : Host) (m : string) : Prop :=
  m = exec_command_msg host dotnet_args (ABS_MOZC_SRC_DIR host)
  \/ m = rmtree_msg host (ninja_dest host)
  \/ (exists exe src, m = extracting_msg host exe src (ninja_dest host))
  \/ m = subprocess_run_msg submodule_command.

(** What [download] can log. *)
Definition is_download_event (e : Event) : bool :=
  match e with
  | EvExists _ | EvStat _ | EvRead _ | EvUnlink _ | EvMkdir _ | EvHttpGet _
  | EvCreate _ | EvWrite _ _ | EvStdout _ | EvPrint _ => true
  | _ => false
  end.

(** The two messages of a dry-run [download]. *)
Definition download_message (host : Host) (m : string) : Prop :=
  exists archive,
    m = removing_msg host (archive_path host archive)
    \/ m = download_msg host (url archive) (archive_path host archive).

(** The message by which a dry run announces an action of a real run: the
    removal of a stale cache entry, the download of a URL into the cache, the
    restore command, the extraction, the submodule command.  The other
    events are the reads and the parts of these steps. *)
Definition announce (host : Host) (e : Event) : option string :=
  match e with
  | EvUnlink p => Some (removing_msg host p)
  | EvHttpGet u =>
      Some (download_msg host u
              (joinpath (CACHE_DIR host)
                 (List.last (split_slash u) EmptyString)))
  | EvPopen args cwd => Some (exec_command_msg host args cwd)
  | EvZipExtract src member dest => Some (extracting_msg host member src dest)
  | EvShell command => Some (subprocess_run_msg command)
  | _ => None
  end.

(** What [fetch] can log, in a dry run or a real one. *)
Definition is_fetch_event (e : Event) : bool :=
  match e with
  | EvMkdir _ | EvHttpGet _ | EvCreate _ | EvWrite _ _ | EvStdout _
  | EvPrint _ => true
  | _ => false
  end.

(** A cached file that fails the validity check of [download]. *)
Definition stale (host : Host) (archive : ArchiveInfo) (content : list byte)
    : Prop :=
  Z.of_nat (length content) <> size archive
  \/ sha256_hexdigest host content <> sha256 archive.

(** The reads of the cache check on an existing entry [n]: lines 131-134.
    The file is hashed only when its size is the expected one. *)
Definition cache_check (archive : ArchiveInfo) (path : Path) (n : Node)
    : list Event :=
  EvExists path :: EvStat path ::
  (if (st_size n =? size archive)%Z then [EvRead path] else []).

(** [w] with more events in its log. *)
Definition log (w : World) (evs : list Event) : World :=
  mkWorld (fs w) (trace w ++ evs)%list (ticks w).

(** The ways a real (non-dry-run) [fetch] started in [w] can end: the cache
    directory cannot be made, the request fails, the target cannot be opened,
    or the response is streamed into the target to its end. *)
Inductive FetchOutcome (host : Host) (archive : ArchiveInfo) (path : Path)
    (w : World) : Res unit -> World -> Prop :=
| fetch_mkdir_fails e :
    mkdir_parents (new_dir_size host) (new_dir_mode host)
      (rev (CACHE_DIR host)) (fs w) = inl e ->
    FetchOutcome host archive path w (Raise e)
      (log w [EvMkdir (CACHE_DIR host)])
| fetch_request_fails f1 :
    mkdir_parents (new_dir_size host) (new_dir_mode host)
      (rev (CACHE_DIR host)) (fs w) = inr f1 ->
    requests_get host (url archive) = None ->
    FetchOutcome host archive path w (Raise (RequestException (url archive)))
      (mkWorld f1
         (trace w ++ [EvMkdir (CACHE_DIR host); EvHttpGet (url archive)])%list
         (ticks w))
| fetch_open_fails f1 resp e out n :
    mkdir_parents (new_dir_size host) (new_dir_mode host)
      (rev (CACHE_DIR host)) (fs w) = inr f1 ->
    requests_get host (url archive) = Some resp ->
    fs_open_wb (new_file_mode host) path f1 = inl e ->
    Forall (fun e => is_stream_output e = true) out ->
    FetchOutcome host archive path w (Raise e)
      (mkWorld f1
         (trace w ++ EvMkdir (CACHE_DIR host) :: EvHttpGet (url archive)
                     :: EvCreate path :: out)%list n)
| fetch_streamed f1 resp m0 out n r :
    mkdir_parents (new_dir_size host) (new_dir_mode host)
      (rev (CACHE_DIR host)) (fs w) = inr f1 ->
    requests_get host (url archive) = Some resp ->
    fs_open_wb (new_file_mode host) path f1
      = inr (<[path := File [] m0]> f1) ->
    Forall (fun e => is_stream_output e = true) out ->
    (if broken resp then r = Raise (RequestException (url archive))
     else forall w0,
       verify host archive
         (Z.of_nat (length (concat (iter_content resp))))
         (concat (iter_content resp)) w0 = (r, w0)) ->
    FetchOutcome host archive path w r
      (mkWorld (<[path := File (concat (iter_content resp)) m0]> f1)
         (trace w ++ EvMkdir (CACHE_DIR host) :: EvHttpGet (url archive)
                     :: EvCreate path :: out)%list n).

(** All a dry run may log: reads of the file system and messages. *)
Definition reads_or_prints (e : Event) : Prop :=
  is_observation e = true \/ is_print e = true.

(** The messages [print] wrote, in order. *)
Definition printed (evs : list Event) : list string :=
  omap (fun e => match e with EvPrint m => Some m | _ => None end) evs.

(** A real step [real] and its dry-run counterpart [dry], started in worlds
    related by [R]: every action of the real step is announced, in order, by
    a message of the dry one; and when the real step returns normally so does
    the dry one, in worlds related by [R']. *)
Definition covers (host : Host) (R R' : World -> World -> Prop)
    (real dry : M unit) : Prop :=
  forall w wd, R w wd ->
    forall r w' rd wd', real w = (r, w') -> dry wd = (rd, wd') ->
      exists evs evsd,
        trace w' = (trace w ++ evs)%list /\
        trace wd' = (trace wd ++ evsd)%list /\
        omap (announce host) evs `sublist_of` printed evsd /\
        (r = Ok tt -> rd = Ok tt /\ R' w' wd').

(** Whether [download] goes on to fetch, given what the cache holds at the
    path of the archive. *)
Definition needs_fetch (host : Host) (archive : ArchiveInfo)
    (entry : option Node) : bool :=
  match entry with
  | None => true
  | Some (File c _) =>
      negb ((Z.of_nat (length c) =? size archive)%Z
            && String.eqb (sha256_hexdigest host c) (sha256 archive))
  | Some (Dir s _) => negb (s =? size archive)%Z
  end.

(** What a dry-run [download] prints, given the cache entry. *)
Definition dry_download_messages (host : Host) (archive : ArchiveInfo)
    (entry : option Node) : list string :=
  if needs_fetch host archive entry then
    match entry with
    | Some _ => [removing_msg host (archive_path host archive)]
    | None => []
    end ++ [download_msg host (url archive) (archive_path host archive)]
  else [].

(** The two worlds hold the same entry at each path of [paths]. *)
Definition agree_on (paths : list Path) (w wd : World) : Prop :=
  forall q, In q paths -> fs w !! q = fs wd !! q.

(** [m] logs only events that satisfy [P]. *)
Definition emits {A} (P : Event -> Prop) (m : M A) : Prop :=
  forall w r w', m w = (r, w') ->
    exists evs, trace w' = (trace w ++ evs)%list /\ Forall P evs.

(** [m] does nothing but add events that satisfy [P] to the log: the file
    system and the clock stay as they are. *)
Definition logs_only {A} (P : Event -> Prop) (m : M A) : Prop :=
  forall w, exists r evs, m w = (r, log w evs) /\ Forall P evs.

(** Whether a string holds the separator of URLs. *)
Fixpoint has_slash (s : string) : bool :=
  match s with
  | EmptyString => false
  | String c rest => Ascii.eqb c "/" || has_slash rest
  end.

(** [m] leaves the clock alone and logs only events that satisfy [P]. *)
Definition steady {A} (P : Event -> Prop) (m : M A) : Prop :=
  forall w r w', m w = (r, w') ->
    ticks w' = ticks w
    /\ exists evs, trace w' = (trace w ++ evs)%list /\ Forall P evs.

(** The cache entry of [archive] passes the validity check of [download]. *)
Definition cached (host : Host) (archive : ArchiveInfo)
    (f : gmap Path Node) : Prop :=
  exists content mode,
    f !! archive_path host archive = Some (File content mode)
    /\ Z.of_nat (length content) = size archive
    /\ sha256_hexdigest host content = sha256 archive.

(** What [extract_ninja] can log. *)
Definition is_extract_event (e : Event) : bool :=
  match e with
  | EvExists _ | EvRead _ | EvZipExtract _ _ _ | EvStat _ | EvChmod _ _
  | EvPrint _ => true
  | _ => false
  end.

(** Anything but a write to the terminal. *)
Definition not_stdout (e : Event) : Prop := forall text, e <> EvStdout text.

(** ** A small host for the examples *)

(** A stand-in for SHA-256 that can be evaluated: a polynomial checksum. *)
Definition example_digest (b : list byte) : string :=
  pretty (fold_left
            (fun acc x => (acc * 31 + Z.of_N (Byte.to_N x)) mod 65521) b 7).

Definition posix_str (p : Path) : string :=
  String.concat "" (map (fun seg => "/" +:+ seg) p).

(** A host of the given platform whose network answers every request with
    [body], whose zip decoder finds one member, ninja, holding the bytes of
    the archive, and whose subprocesses succeed and change nothing. *)
Definition example_host (name sysname : string) (body : list (list byte))
    : Host := {|
  os_name := name;
  uname_sysname := sysname;
  ABS_MOZC_SRC_DIR := ["work"; "src"];
  path_str := posix_str;
  sha256_hexdigest := example_digest;
  requests_get := fun _ => Some (mkResponse body false);
  zip_members := fun b => Some [("ninja", b)];
  shell_run := fun _ f => (f, 0);
  popen_run := fun _ _ f => Some (f, 0);
  stdout_isatty := true;
  terminal_columns := 24;
  time_ns := fun n => Z.of_nat n * 30000000;
  new_file_mode := 420;
  new_dir_size := 4096;
  new_dir_mode := 493;
  str_hash := fun s => Z.of_nat (String.length s)
|}.

(** The archive of the scenarios of the specification, three bytes long. *)
Definition example_archive : ArchiveInfo := {|
  url := "https://example.org/dist/foo-1.0.zip";
  size := 3;
  sha256 := example_digest ["001"; "002"; "003"]%byte
|}.

Definition example_linux : Host :=
  example_host "posix" "Linux" [["001"; "002"]; ["003"]]%byte.

(** The same host behind a connection that delivers two bytes of three. *)
Definition example_short : Host :=
  example_host "posix" "Linux" [["001"; "002"]]%byte.

Definition example_mac : Host :=
  example_host "posix" "Darwin" [["001"; "002"]; ["003"]]%byte.

Definition example_entry : Path :=
  ["work"; "src"; "third_party_cache"; "foo-1.0.zip"].

(** A cache directory that holds the given bytes, if any, for the archive. *)
Definition example_world (cached : option (list byte)) : World :=
  mkWorld
    (<[ ["work"; "src"; "third_party_cache"] := Dir 4096 493 ]>
       match cached with
       | Some c => {[ example_entry := File c 420 ]}
       | None => ∅
       end)
    [] 0.

(** A macOS tree with the ninja archive in the cache and an older tool left
    in the extraction destination. *)
Definition example_mac_world : World :=
  mkWorld
    (<[ ["work"; "src"; "third_party_cache"; "ninja-mac.zip"]
          := File ["007"; "008"]%byte 420 ]>
       (<[ ["work"; "src"; "third_party"; "ninja"] := Dir 4096 493 ]>
          {[ ["work"; "src"; "third_party"; "ninja"; "ninja-1.10"]
               := File ["009"]%byte 493 ]}))
    [] 0.

(** A variant of the example host: the network, whether stdout is a
    terminal and the exit code of a spawned process are chosen. *)
Definition example_variant (name sysname : string)
    (net : string -> option Response) (tty : bool) (exitcode : Z) : Host := {|
  os_name := name;
  uname_sysname := sysname;
  ABS_MOZC_SRC_DIR := ["work"; "src"];
  path_str := posix_str;
  sha256_hexdigest := example_digest;
  requests_get := net;
  zip_members := fun b => Some [("ninja", b)];
  shell_run := fun _ f => (f, 0);
  popen_run := fun _ _ f => Some (f, exitcode);
  stdout_isatty := tty;
  terminal_columns := 24;
  time_ns := fun n => Z.of_nat n * 30000000;
  new_file_mode := 420;
  new_dir_size := 4096;
  new_dir_mode := 493;
  str_hash := fun s => Z.of_nat (String.length s)
|}.

(** No network at all. *)
Definition example_offline : Host :=
  example_variant "posix" "Linux" (fun _ => None) true 0.

(** A connection that breaks after the first two bytes. *)
Definition example_flaky : Host :=
  example_variant "posix" "Linux"
    (fun _ => Some (mkResponse [["001"; "002"]]%byte true)) true 0.

(** Output redirected to a file. *)
Definition example_piped : Host :=
  example_variant "posix" "Linux"
    (fun _ => Some (mkResponse [["001"; "002"]; ["003"]]%byte false)) false 0.

(** Windows with a dotnet that fails. *)
Definition example_windows : Host :=
  example_variant "nt" "" (fun _ => None) true 1.

(** A body as long as the registry says ninja-mac.zip is, the way
    [iter_content(chunk_size=8192)] hands it out: 33 chunks of 8192 bytes and
    one of 6962. *)
Definition example_ninja_body : list (list byte) :=
  (repeat (repeat "000"%byte (Z.to_nat 8192)) 33
   ++ [repeat "000"%byte (Z.to_nat 6962)])%list.

(** A macOS host whose network delivers that body and on which a body of
    that length has the SHA-256 of the registry. *)
Definition example_registry_mac : Host := {|
  os_name := "posix";
  uname_sysname := "Darwin";
  ABS_MOZC_SRC_DIR := ["work"; "src"];
  path_str := posix_str;
  sha256_hexdigest := fun b =>
    if (Z.of_nat (length b) =? size NINJA_MAC)%Z then sha256 NINJA_MAC
    else example_digest b;
  requests_get := fun _ => Some (mkResponse example_ninja_body false);
  zip_members := fun b => Some [("ninja", b)];
  shell_run := fun _ f => (f, 0);
  popen_run := fun _ _ f => Some (f, 0);
  stdout_isatty := true;
  terminal_columns := 24;
  time_ns := fun n => Z.of_nat n * 30000000;
  new_file_mode := 420;
  new_dir_size := 4096;
  new_dir_mode := 493;
  str_hash := fun s => Z.of_nat (String.length s)
|}.

(** ** The monad and the primitives *)

Lemma new_events_app w w' evs :
  trace w' = (trace w ++ evs)%list -> new_events w w' = evs.
Proof.
  intros H. unfold new_events. rewrite H. apply drop_app_length.
Qed.

Lemma emits_ret {A} P (a : A) : emits P (ret a).
Proof.
  intros w r w' H. inversion H; subst. exists []. rewrite app_nil_r. auto.
Qed.

Lemma emits_raise {A} P e : emits P (@raise A e).
Proof.
  intros w r w' H. inversion H; subst. exists []. rewrite app_nil_r. auto.
Qed.

Lemma emits_emit (P : Event -> Prop) e : P e -> emits P (emit e).
Proof.
  intros HP w r w' H. inversion H; subst. exists [e]. simpl. auto.
Qed.

Lemma emits_bind {A B} P (m : M A) (k : A -> M B) :
  emits P m -> (forall a, emits P (k a)) -> emits P (bind m k).
Proof.
  intros Hm Hk w r w' H. unfold bind in H.
  destruct (m w) as [[a|e] w1] eqn:E.
  - destruct (Hm _ _ _ E) as (evs1 & T1 & F1).
    destruct (Hk a _ _ _ H) as (evs2 & T2 & F2).
    exists (evs1 ++ evs2)%list. split.
    + rewrite T2, T1. by rewrite app_assoc.
    + by apply Forall_app.
  - inversion H; subst. eauto.
Qed.

Lemma emits_with_exit {A} P (body : M A) (exit : M unit) :
  emits P body -> emits P exit -> emits P (with_exit body exit).
Proof.
  intros Hb He w r w' H. unfold with_exit in H.
  destruct (body w) as [rb w1] eqn:E1.
  destruct (exit w1) as [re w2] eqn:E2.
  destruct (Hb _ _ _ E1) as (evs1 & T1 & F1).
  destruct (He _ _ _ E2) as (evs2 & T2 & F2).
  exists (evs1 ++ evs2)%list. split.
  - destruct re; inversion H; subst; rewrite T2, T1; by rewrite app_assoc.
  - by apply Forall_app.
Qed.

Lemma emits_weaken {A} (P Q : Event -> Prop) (m : M A) :
  (forall e, P e -> Q e) -> emits P m -> emits Q m.
Proof.
  intros HPQ Hm w r w' H. destruct (Hm _ _ _ H) as (evs & T & F).
  exists evs. split; [done|]. eapply Forall_impl; eauto.
Qed.

Lemma emits_get_fs P : emits P get_fs.
Proof.
  intros w r w' H. inversion H; subst. exists []. rewrite app_nil_r. auto.
Qed.

Lemma emits_put_fs P f : emits P (put_fs f).
Proof.
  intros w r w' H. inversion H; subst. exists []. simpl.
  rewrite app_nil_r. auto.
Qed.

Lemma emits_update_fs P op : emits P (update_fs op).
Proof.
  intros w r w' H. unfold update_fs in H.
  destruct (op (fs w)); inversion H; subst; exists []; simpl;
    rewrite app_nil_r; auto.
Qed.

Lemma emits_for_each {A} P (body : A -> M unit) l :
  (forall x, In x l -> emits P (body x)) -> emits P (for_each body l).
Proof.
  induction l as [|x l IH]; intros Hb; simpl.
  - apply emits_ret.
  - apply emits_bind.
    + apply Hb. by left.
    + intros _. apply IH. intros y Hy. apply Hb. by right.
Qed.

Lemma log_nil w : log w [] = w.
Proof. unfold log. rewrite app_nil_r. by destruct w. Qed.

Lemma log_log w a b : log (log w a) b = log w (a ++ b)%list.
Proof. unfold log. simpl. by rewrite app_assoc. Qed.

Lemma logs_only_ret {A} P (a : A) : logs_only P (ret a).
Proof. intros w. exists (Ok a), []. by rewrite log_nil. Qed.

Lemma logs_only_raise {A} P e : logs_only P (@raise A e).
Proof. intros w. exists (Raise e), []. by rewrite log_nil. Qed.

Lemma logs_only_emit (P : Event -> Prop) e : P e -> logs_only P (emit e).
Proof. intros HP w. exists (Ok tt), [e]. split; [done|]. by constructor. Qed.

Lemma logs_only_get_fs P : logs_only P get_fs.
Proof. intros w. exists (Ok (fs w)), []. by rewrite log_nil. Qed.

Lemma logs_only_bind {A B} P (m : M A) (k : A -> M B) :
  logs_only P m -> (forall a, logs_only P (k a)) -> logs_only P (bind m k).
Proof.
  intros Hm Hk w. destruct (Hm w) as (r & evs1 & E1 & F1).
  unfold bind. rewrite E1. destruct r as [a|e].
  - destruct (Hk a (log w evs1)) as (r2 & evs2 & E2 & F2).
    exists r2, (evs1 ++ evs2)%list. rewrite E2, log_log.
    split; [done|]. by apply Forall_app.
  - by exists (Raise e), evs1.
Qed.

Lemma logs_only_for_each {A} P (body : A -> M unit) l :
  (forall x, logs_only P (body x)) -> logs_only P (for_each body l).
Proof.
  intros Hb. induction l as [|x l IH]; simpl.
  - apply logs_only_ret.
  - apply logs_only_bind; auto.
Qed.

Lemma logs_only_emits {A} P (m : M A) : logs_only P m -> emits P m.
Proof.
  intros Hm w r w' H. destruct (Hm w) as (r1 & evs & E & F).
  rewrite E in H. inversion H; subst. by exists evs.
Qed.

Create HintDb effects.

#[local] Hint Resolve emits_ret emits_raise emits_bind emits_with_exit
  emits_get_fs emits_put_fs emits_update_fs : effects.
#[local] Hint Resolve logs_only_ret logs_only_raise logs_only_get_fs
  logs_only_bind : effects.

(** *** Running the primitives *)

Lemma bind_ok {A B} (m : M A) (k : A -> M B) w a w1 :
  m w = (Ok a, w1) -> bind m k w = k a w1.
Proof. intros H. unfold bind. by rewrite H. Qed.

Lemma bind_raise {A B} (m : M A) (k : A -> M B) w e w1 :
  m w = (Raise e, w1) -> bind m k w = (Raise e, w1).
Proof. intros H. unfold bind. by rewrite H. Qed.

Lemma path_exists_run p w :
  path_exists p w
  = (Ok (bool_decide (is_Some (fs w !! p))), log w [EvExists p]).
Proof. reflexivity. Qed.

Lemma path_stat_run p w n :
  fs w !! p = Some n -> path_stat p w = (Ok n, log w [EvStat p]).
Proof.
  intros H. unfold path_stat, bind, emit, get_fs. simpl. by rewrite H.
Qed.

Lemma read_bytes_run p w c m :
  fs w !! p = Some (File c m) -> read_bytes p w = (Ok c, log w [EvRead p]).
Proof.
  intros H. unfold read_bytes, bind, emit, get_fs. simpl. by rewrite H.
Qed.

Lemma path_unlink_run p w c m :
  fs w !! p = Some (File c m) ->
  path_unlink p w
  = (Ok tt, mkWorld (delete p (fs w)) (trace w ++ [EvUnlink p]) (ticks w)).
Proof.
  intros H. unfold path_unlink, bind, emit, get_fs. simpl. by rewrite H.
Qed.

Lemma print_run msg w : print msg w = (Ok tt, log w [EvPrint msg]).
Proof. reflexivity. Qed.

Lemma get_sha256_run host p w c m :
  fs w !! p = Some (File c m) ->
  get_sha256 host p w = (Ok (sha256_hexdigest host c), log w [EvRead p]).
Proof.
  intros H. unfold get_sha256. by erewrite bind_ok by by eapply read_bytes_run.
Qed.

(** *** Directories *)

Lemma parent_rev_cons seg rp : parent (rev (seg :: rp)) = rev rp.
Proof. simpl. unfold parent. apply removelast_last. Qed.

Lemma is_dir_lookup f p :
  is_dir f p = true -> p = [] \/ exists s m, f !! p = Some (Dir s m).
Proof.
  destruct p as [|x p]; [by left|]. unfold is_dir.
  destruct (f !! (x :: p)) as [[c m|s m]|]; try discriminate. eauto.
Qed.

(** A directory that exists is left as it is. *)
Lemma mkdir_parents_is_dir ds dm p f :
  is_dir f p = true -> mkdir_parents ds dm (rev p) f = inr f.
Proof.
  intros Hd. destruct (rev p) as [|seg rp] eqn:E; [done|].
  assert (Hp : p = rev (seg :: rp)) by by rewrite <- E, rev_involutive.
  destruct (is_dir_lookup _ _ Hd) as [->|(s & m & Hl)]; [done|].
  cbn [mkdir_parents]. rewrite <- Hp. by rewrite Hl.
Qed.

Lemma mkdir_parents_not_runtime ds dm rp : forall f e,
  mkdir_parents ds dm rp f = inl e -> forall msg, e <> RuntimeError msg.
Proof.
  induction rp as [|seg rp IH]; intros f e H msg; [done|].
  cbn [mkdir_parents] in H.
  destruct (f !! rev (seg :: rp)) as [[c m|s m]|]; try congruence.
  destruct (is_dir f (rev rp)); [done|].
  destruct (f !! rev rp); [congruence|].
  destruct (mkdir_parents ds dm rp f) eqn:E; [|done].
  inversion H; subst. by eapply IH.
Qed.

(** [mkdir] touches the path and its ancestors only. *)
Lemma mkdir_parents_frame ds dm rp : forall f f',
  mkdir_parents ds dm rp f = inr f' ->
  forall q, ~ q `prefix_of` rev rp -> f' !! q = f !! q.
Proof.
  induction rp as [|seg rp IH]; intros f f' H q Hq.
  { by inversion H. }
  cbn [mkdir_parents] in H.
  assert (Hne : rev (seg :: rp) <> q).
  { intros <-. by apply Hq. }
  destruct (f !! rev (seg :: rp)) as [[c m|s m]|]; try congruence.
  destruct (is_dir f (rev rp)).
  { inversion H; subst. by rewrite lookup_insert_ne. }
  destruct (f !! rev rp); [congruence|].
  destruct (mkdir_parents ds dm rp f) as [|f1] eqn:E; [done|].
  inversion H; subst. rewrite lookup_insert_ne by done.
  eapply IH; [done|]. intros Hpre. apply Hq.
  simpl. by apply prefix_app_r.
Qed.

Lemma fs_open_wb_not_runtime fmode p f e :
  fs_open_wb fmode p f = inl e -> forall msg, e <> RuntimeError msg.
Proof.
  unfold fs_open_wb. intros H msg.
  destruct (f !! p) as [[c m|s m]|]; try congruence.
  destruct (is_dir f (parent p)); congruence.
Qed.

Lemma fs_open_wb_new fmode p f :
  f !! p = None -> is_dir f (parent p) = true ->
  fs_open_wb fmode p f = inr (<[p := File [] fmode]> f).
Proof. intros H1 H2. unfold fs_open_wb. by rewrite H1, H2. Qed.

Lemma append_inj_l (s x y : string) : s +:+ x = s +:+ y -> x = y.
Proof.
  induction s as [|c s IH]; simpl; [done|]. intros H. inversion H. auto.
Qed.

(** The two integrity errors never carry the same message. *)
Lemma mismatch_msgs_differ archive saved actual :
  size_mismatch_msg archive saved <> sha256_mismatch_msg archive actual.
Proof.
  unfold size_mismatch_msg, sha256_mismatch_msg. intros H.
  apply append_inj_l in H. simpl in H. discriminate.
Qed.

(** ** The download proper *)

Section Fetch.

Variable host : Host.
Variable archive : ArchiveInfo.
Variable path : Path.

Lemma print_line_run pr msg w :
  exists pr' evs n,
    print_line host pr msg w
    = (Ok pr', mkWorld (fs w) (trace w ++ evs)%list n) /\
    Forall (fun e => is_stream_output e = true) evs.
Proof.
  destruct pr as [|last]; simpl.
  - exists NoOpImpl, [], (ticks w). rewrite app_nil_r.
    split; [by destruct w|constructor].
  - unfold bind, read_clock.
    destruct (time_ns host (ticks w) - last <? 25000000)%Z.
    + exists (Impl last), [], (S (ticks w)). rewrite app_nil_r.
      split; [reflexivity|constructor].
    + eexists (Impl _), [_], (S (ticks w)).
      split; [reflexivity|]. by repeat constructor.
Qed.

Lemma file_write_run p chunk w c m :
  fs w !! p = Some (File c m) ->
  file_write p chunk w
  = (Ok tt, mkWorld (<[p := File (c ++ chunk)%list m]> (fs w))
                    (trace w ++ [EvWrite p chunk])%list (ticks w)).
Proof.
  intros H. unfold file_write, bind, emit, update_fs, fs_write. simpl.
  by rewrite H.
Qed.

(** The loop writes every chunk in order, whatever the progress printer
    does; it raises only at the end of a broken stream. *)
Lemma write_chunks_run chunks brk : forall saved hasher pr w c m,
  fs w !! path = Some (File c m) ->
  exists evs n,
    write_chunks host archive path chunks brk saved hasher pr w
    = ((if brk then Raise (RequestException (url archive))
        else Ok (saved + Z.of_nat (length (concat chunks)),
                 (hasher ++ concat chunks)%list)),
       mkWorld (<[path := File (c ++ concat chunks)%list m]> (fs w))
               (trace w ++ evs)%list n) /\
    Forall (fun e => is_stream_output e = true) evs.
Proof.
  induction chunks as [|chunk rest IH]; intros saved hasher pr w c m Hf.
  - exists [], (ticks w). simpl. rewrite !app_nil_r, Z.add_0_r.
    rewrite insert_id by done.
    split; [by destruct brk, w|constructor].
  - simpl.
    erewrite bind_ok by by eapply file_write_run.
    destruct (print_line_run pr
                (filename archive +:+ ": " +:+
                 pretty (saved + Z.of_nat (length chunk)) +:+ "/" +:+
                 pretty (size archive))
                (mkWorld (<[path := File (c ++ chunk)%list m]> (fs w))
                   (trace w ++ [EvWrite path chunk])%list (ticks w)))
      as (pr' & evs1 & n1 & Hp & F1).
    cbn [fs trace ticks] in Hp.
    erewrite bind_ok by exact Hp.
    edestruct (IH (saved + Z.of_nat (length chunk))
                 (hasher ++ chunk)%list pr'
                 (mkWorld (<[path := File (c ++ chunk)%list m]> (fs w))
                    ((trace w ++ [EvWrite path chunk]) ++ evs1)%list n1)
                 (c ++ chunk)%list m)
      as (evs2 & n2 & Hr & F2).
    { simpl. apply lookup_insert_eq. }
    exists (EvWrite path chunk :: evs1 ++ evs2)%list, n2.
    split.
    + rewrite Hr. simpl. rewrite insert_insert_eq.
      rewrite length_app, Nat2Z.inj_add, Z.add_assoc, <- !app_assoc.
      reflexivity.
    + constructor; [done|]. by apply Forall_app.
Qed.

Lemma fs_open_wb_ok fmode f f1 :
  fs_open_wb fmode path f = inr f1 ->
  exists m0, f1 = <[path := File [] m0]> f.
Proof.
  unfold fs_open_wb. intros H.
  destruct (f !! path) as [[c m|s m]|]; try discriminate.
  - inversion H. eauto.
  - destruct (is_dir f (parent path)); inversion H. eauto.
Qed.

Lemma ProgressPrinter_enter_run w :
  exists pr n,
    ProgressPrinter_enter host w = (Ok pr, mkWorld (fs w) (trace w) n).
Proof.
  unfold ProgressPrinter_enter. destruct (stdout_isatty host).
  - eexists _, _. reflexivity.
  - exists NoOpImpl, (ticks w). by destruct w.
Qed.

Lemma ProgressPrinter_exit_run pr w :
  exists evs,
    ProgressPrinter_exit host pr w = (Ok tt, log w evs) /\
    Forall (fun e => is_stream_output e = true) evs.
Proof.
  destruct pr; simpl.
  - exists []. unfold log. rewrite app_nil_r. split; [by destruct w|constructor].
  - eexists [_]. split; [reflexivity|]. by repeat constructor.
Qed.

Lemma stream_no_response w :
  requests_get host (url archive) = None ->
  stream host archive path w
  = (Raise (RequestException (url archive)), log w [EvHttpGet (url archive)]).
Proof.
  intros H. unfold stream, bind, emit. simpl. by rewrite H.
Qed.

Lemma stream_open_fails w resp e :
  requests_get host (url archive) = Some resp ->
  fs_open_wb (new_file_mode host) path (fs w) = inl e ->
  exists out n,
    stream host archive path w
    = (Raise e,
       mkWorld (fs w)
         (trace w ++ EvHttpGet (url archive) :: EvCreate path :: out)%list n)
    /\ Forall (fun e => is_stream_output e = true) out.
Proof.
  intros Hreq Hopen. unfold stream.
  erewrite bind_ok by reflexivity. rewrite Hreq.
  destruct (ProgressPrinter_enter_run (log w [EvHttpGet (url archive)]))
    as (pr & n & Hen).
  erewrite bind_ok by exact Hen. cbn [log fs trace ticks].
  unfold with_exit.
  erewrite bind_raise.
  2:{ unfold open_wb. erewrite bind_ok by reflexivity.
      unfold update_fs. cbn [fs trace ticks]. rewrite Hopen. reflexivity. }
  edestruct ProgressPrinter_exit_run as (out & Hex & Fo).
  rewrite Hex. exists out, n. split; [|done].
  unfold log. cbn [fs trace ticks]. by rewrite <- !app_assoc.
Qed.

Lemma stream_run w resp m0 :
  requests_get host (url archive) = Some resp ->
  fs_open_wb (new_file_mode host) path (fs w)
    = inr (<[path := File [] m0]> (fs w)) ->
  exists out n,
    stream host archive path w
    = ((if broken resp then Raise (RequestException (url archive))
        else Ok (Z.of_nat (length (concat (iter_content resp))),
                 concat (iter_content resp))),
       mkWorld (<[path := File (concat (iter_content resp)) m0]> (fs w))
         (trace w ++ EvHttpGet (url archive) :: EvCreate path :: out)%list n)
    /\ Forall (fun e => is_stream_output e = true) out.
Proof.
  intros Hreq Hopen. unfold stream.
  erewrite bind_ok by reflexivity. rewrite Hreq.
  destruct (ProgressPrinter_enter_run (log w [EvHttpGet (url archive)]))
    as (pr & n & Hen).
  erewrite bind_ok by exact Hen. cbn [log fs trace ticks].
  unfold with_exit.
  erewrite bind_ok.
  2:{ unfold open_wb. erewrite bind_ok by reflexivity.
      unfold update_fs. cbn [fs trace ticks]. rewrite Hopen. reflexivity. }
  edestruct (write_chunks_run (iter_content resp) (broken resp) 0 [] pr)
    as (out1 & n1 & Hw & F1); [|rewrite Hw].
  { cbn [fs]. apply lookup_insert_eq. }
  edestruct ProgressPrinter_exit_run as (out2 & Hex & F2).
  rewrite Hex. exists (out1 ++ out2)%list, n1. split.
  - unfold log. cbn [fs trace ticks].
    rewrite insert_insert_eq, <- !app_assoc. simpl.
    by destruct (broken resp).
  - by apply Forall_app.
Qed.

Lemma path_mkdir_run p w :
  path_mkdir host p w
  = match mkdir_parents (new_dir_size host) (new_dir_mode host) (rev p)
            (fs w) with
    | inl e => (Raise e, log w [EvMkdir p])
    | inr f1 => (Ok tt, mkWorld f1 (trace w ++ [EvMkdir p])%list (ticks w))
    end.
Proof.
  unfold path_mkdir, bind, emit, update_fs. simpl.
  by destruct (mkdir_parents _ _ _ _).
Qed.

Lemma verify_size_mismatch saved hasher w :
  saved <> size archive ->
  verify host archive saved hasher w
  = (Raise (RuntimeError (size_mismatch_msg archive saved)), w).
Proof.
  intros H. unfold verify. apply Z.eqb_neq in H. by rewrite H.
Qed.

Lemma verify_sha256_mismatch hasher w :
  sha256_hexdigest host hasher <> sha256 archive ->
  verify host archive (size archive) hasher w
  = (Raise (RuntimeError (sha256_mismatch_msg archive
                            (sha256_hexdigest host hasher))), w).
Proof.
  intros H. unfold verify. rewrite Z.eqb_refl. simpl.
  apply String.eqb_neq in H. by rewrite H.
Qed.

Lemma verify_ok hasher w :
  sha256_hexdigest host hasher = sha256 archive ->
  verify host archive (size archive) hasher w = (Ok tt, w).
Proof.
  intros H. unfold verify. rewrite Z.eqb_refl. simpl.
  by rewrite H, String.eqb_refl.
Qed.

Lemma verify_pure saved hasher :
  exists r, forall w0, verify host archive saved hasher w0 = (r, w0).
Proof.
  unfold verify.
  destruct (negb _); [eexists; reflexivity|].
  cbv zeta. destruct (negb _); eexists; reflexivity.
Qed.

Lemma fetch_real_outcome w r w' :
  fetch host archive path false w = (r, w') ->
  FetchOutcome host archive path w r w'.
Proof.
  unfold fetch. intros H.
  destruct (mkdir_parents (new_dir_size host) (new_dir_mode host)
              (rev (CACHE_DIR host)) (fs w)) as [e|f1] eqn:Hmk.
  - erewrite bind_raise in H by (rewrite path_mkdir_run, Hmk; reflexivity).
    inversion H; subst. by constructor.
  - erewrite bind_ok in H by (rewrite path_mkdir_run, Hmk; reflexivity).
    set (w1 := mkWorld f1 (trace w ++ [EvMkdir (CACHE_DIR host)])%list
                 (ticks w)) in H.
    destruct (requests_get host (url archive)) as [resp|] eqn:Hreq.
    + destruct (fs_open_wb (new_file_mode host) path f1) as [e|f2] eqn:Hop.
      * destruct (stream_open_fails w1 resp e Hreq Hop)
          as (out & n & Hs & Fo).
        erewrite bind_raise in H by exact Hs. inversion H; subst.
        unfold w1. cbn [fs trace ticks]. rewrite <- app_assoc.
        by eapply fetch_open_fails.
      * destruct (fs_open_wb_ok _ _ _ Hop) as [m0 ->].
        destruct (stream_run w1 resp m0 Hreq Hop) as (out & n & Hs & Fo).
        destruct (broken resp) eqn:Hbr.
        -- erewrite bind_raise in H by exact Hs. inversion H; subst.
           unfold w1. cbn [fs trace ticks]. rewrite <- app_assoc.
           eapply fetch_streamed; eauto. by rewrite Hbr.
        -- erewrite bind_ok in H by exact Hs. cbn [fst snd] in H.
           destruct (verify_pure
                       (Z.of_nat (length (concat (iter_content resp))))
                       (concat (iter_content resp))) as [r0 Hv].
           rewrite Hv in H. inversion H; subst.
           unfold w1. cbn [fs trace ticks]. rewrite <- app_assoc.
           eapply fetch_streamed; eauto. by rewrite Hbr.
    + erewrite bind_raise in H by by apply stream_no_response.
      inversion H; subst. unfold w1, log. cbn [fs trace ticks].
      rewrite <- app_assoc. by constructor.
Qed.

(** A real fetch that ends in a RuntimeError streamed the whole response
    into the target and failed one of the two checks of [verify]. *)
Lemma fetch_runtime_error w msg w' :
  fetch host archive path false w = (Raise (RuntimeError msg), w') ->
  exists f1 resp m0 out n,
    requests_get host (url archive) = Some resp /\
    (forall w0,
       verify host archive (Z.of_nat (length (concat (iter_content resp))))
         (concat (iter_content resp)) w0 = (Raise (RuntimeError msg), w0)) /\
    Forall (fun e => is_stream_output e = true) out /\
    w' = mkWorld (<[path := File (concat (iter_content resp)) m0]> f1)
           (trace w ++ EvMkdir (CACHE_DIR host) :: EvHttpGet (url archive)
                       :: EvCreate path :: out)%list n.
Proof.
  intros H. apply fetch_real_outcome in H.
  inversion H as [e Hmk|f1 Hmk Hreq|f1 resp e out n Hmk Hreq Hop Fo
                 |f1 resp m0 out n r Hmk Hreq Hop Fo Hr]; subst.
  - by eapply mkdir_parents_not_runtime in Hmk.
  - by eapply fs_open_wb_not_runtime in Hop.
  - destruct (broken resp); [done|]. by exists f1, resp, m0, out, n.
Qed.

(** With the cache directory in place and no entry at the target, a real
    fetch gets as far as the end of the stream. *)
Lemma fetch_streams w resp :
  is_dir (fs w) (CACHE_DIR host) = true ->
  fs w !! path = None ->
  is_dir (fs w) (parent path) = true ->
  requests_get host (url archive) = Some resp ->
  exists r out n,
    fetch host archive path false w
    = (r, mkWorld (<[path := File (concat (iter_content resp))
                               (new_file_mode host)]> (fs w))
            (trace w ++ EvMkdir (CACHE_DIR host) :: EvHttpGet (url archive)
                        :: EvCreate path :: out)%list n) /\
    Forall (fun e => is_stream_output e = true) out /\
    (if broken resp then r = Raise (RequestException (url archive))
     else forall w0,
       verify host archive (Z.of_nat (length (concat (iter_content resp))))
         (concat (iter_content resp)) w0 = (r, w0)).
Proof.
  intros Hd Hn Hp Hreq.
  destruct (fetch host archive path false w) as [r w'] eqn:E.
  pose proof (mkdir_parents_is_dir (new_dir_size host) (new_dir_mode host)
                _ _ Hd) as Hmk0.
  pose proof (fs_open_wb_new (new_file_mode host) _ _ Hn Hp) as Hop0.
  apply fetch_real_outcome in E.
  inversion E as [e Hmk|f1 Hmk Hreq'|f1 resp' e out n Hmk Hreq' Hop Fo
                 |f1 resp' m0 out n r' Hmk Hreq' Hop Fo Hr]; subst;
    try congruence.
  assert (f1 = fs w) by congruence. subst f1.
  assert (resp' = resp) by congruence. subst resp'.
  assert (Hm : m0 = new_file_mode host).
  { rewrite Hop0 in Hop. inversion Hop as [Heq].
    assert (Hl : (<[path := File [] (new_file_mode host)]> (fs w)) !! path
                 = (<[path := File [] m0]> (fs w)) !! path) by by rewrite Heq.
    rewrite !lookup_insert_eq in Hl. congruence. }
  subst m0. by exists r, out, n.
Qed.

Lemma verify_raises_stale saved hasher e w :
  fst (verify host archive saved hasher w) = Raise e ->
  saved <> size archive \/ sha256_hexdigest host hasher <> sha256 archive.
Proof.
  unfold verify. destruct (saved =? size archive)%Z eqn:Hs; simpl.
  - destruct (String.eqb _ _) eqn:Hh; simpl; [done|].
    intros _. right. by apply String.eqb_neq.
  - intros _. left. by apply Z.eqb_neq.
Qed.

Lemma verify_runtime_msg saved hasher msg w :
  fst (verify host archive saved hasher w) = Raise (RuntimeError msg) ->
  (saved <> size archive /\ msg = size_mismatch_msg archive saved)
  \/ (saved = size archive
      /\ sha256_hexdigest host hasher <> sha256 archive
      /\ msg = sha256_mismatch_msg archive (sha256_hexdigest host hasher)).
Proof.
  unfold verify. destruct (saved =? size archive)%Z eqn:Hs; simpl.
  - apply Z.eqb_eq in Hs.
    destruct (String.eqb _ _) eqn:Hh; simpl; [done|].
    intros H. inversion H. right. split; [done|]. split; [|done].
    by apply String.eqb_neq.
  - intros H. inversion H. left. split; [|done]. by apply Z.eqb_neq.
Qed.

Lemma verify_ok_inv saved hasher w :
  fst (verify host archive saved hasher w) = Ok tt ->
  saved = size archive /\ sha256_hexdigest host hasher = sha256 archive.
Proof.
  unfold verify. destruct (saved =? size archive)%Z eqn:Hs; simpl; [|done].
  destruct (String.eqb _ _) eqn:Hh; simpl; [|done].
  intros _. split; [by apply Z.eqb_eq|by apply String.eqb_eq].
Qed.

Lemma fetch_events dryrun w r w' :
  fetch host archive path dryrun w = (r, w') ->
  exists evs, trace w' = (trace w ++ evs)%list
              /\ Forall (fun e => is_fetch_event e = true) evs.
Proof.
  destruct dryrun.
  - unfold fetch. rewrite print_run. intros H; inversion H; subst.
    eexists. split; [reflexivity|]. by repeat constructor.
  - intros H. apply fetch_real_outcome in H.
    assert (Hout : forall out,
      Forall (fun e => is_stream_output e = true) out ->
      Forall (fun e => is_fetch_event e = true) out).
    { intros out Ho. eapply Forall_impl; [exact Ho|]. by intros []. }
    inversion H; subst; cbn [log trace];
      (eexists; split; [reflexivity|]); repeat constructor; auto.
Qed.

End Fetch.

(** ** The cache check of [download] *)

Section CacheCheck.

Variable host : Host.
Variable archive : ArchiveInfo.

Local Abbreviation path := (archive_path host archive).

Lemma download_absent dryrun w :
  fs w !! path = None ->
  download host archive dryrun w
  = fetch host archive path dryrun (log w [EvExists path]).
Proof.
  intros Hf. unfold download.
  erewrite bind_ok by apply path_exists_run.
  rewrite bool_decide_false; [done|]. rewrite Hf. by intros [? ?].
Qed.

Lemma cache_check_stale w content mode :
  fs w !! path = Some (File content mode) ->
  stale host archive content ->
  (if (Z.of_nat (length content) =? size archive)%Z then
     digest <- get_sha256 host path ;;
     ret (String.eqb digest (sha256 archive))
   else ret false) (log w [EvExists path; EvStat path])
  = (Ok false, log w (cache_check archive path (File content mode))).
Proof.
  intros Hf Hst. unfold cache_check. cbn [st_size].
  destruct (Z.of_nat (length content) =? size archive)%Z eqn:Hsz.
  - erewrite bind_ok by by eapply get_sha256_run.
    rewrite log_log.
    destruct Hst as [Hst|Hst]; [by apply Z.eqb_eq in Hsz|].
    apply String.eqb_neq in Hst. by rewrite Hst.
  - reflexivity.
Qed.

Lemma download_stale w content mode dryrun :
  fs w !! path = Some (File content mode) ->
  stale host archive content ->
  download host archive dryrun w
  = fetch host archive path dryrun
      (if dryrun
       then log w (cache_check archive path (File content mode)
                   ++ [EvPrint (removing_msg host path)])
       else mkWorld (delete path (fs w))
              (trace w ++ cache_check archive path (File content mode)
                       ++ [EvUnlink path])%list
              (ticks w)).
Proof.
  intros Hf Hst. unfold download.
  erewrite bind_ok by apply path_exists_run.
  rewrite bool_decide_true by (rewrite Hf; eauto).
  erewrite bind_ok by by eapply path_stat_run.
  rewrite log_log. cbn [app st_size].
  erewrite bind_ok by by eapply cache_check_stale.
  destruct dryrun.
  - erewrite bind_ok by apply print_run. by rewrite log_log.
  - erewrite bind_ok by by eapply path_unlink_run.
    unfold log. cbn [fs trace ticks]. by rewrite <- app_assoc.
Qed.

Lemma download_directory w s m dryrun r w' :
  fs w !! path = Some (Dir s m) ->
  download host archive dryrun w = (r, w') ->
  (r = Raise (IsADirectoryError path) /\ fs w' = fs w)
  \/ (dryrun = true /\ s <> size archive).
Proof.
  intros Hf. unfold download.
  erewrite bind_ok by apply path_exists_run.
  rewrite bool_decide_true by (rewrite Hf; eauto).
  erewrite bind_ok by by eapply path_stat_run.
  cbn [st_size]. destruct (s =? size archive)%Z eqn:Hs.
  - unfold get_sha256, read_bytes, bind, emit, get_fs, raise. simpl.
    rewrite Hf. intros H; inversion H; subst. by left.
  - erewrite bind_ok by reflexivity.
    destruct dryrun.
    + intros _. right. split; [done|]. by apply Z.eqb_neq.
    + unfold path_unlink, bind, emit, get_fs, raise. simpl.
      rewrite Hf. intros H; inversion H; subst. by left.
Qed.

Lemma download_cache_hit_run dryrun w content mode :
  fs w !! path = Some (File content mode) ->
  Z.of_nat (length content) = size archive ->
  sha256_hexdigest host content = sha256 archive ->
  exists w',
    download host archive dryrun w = (Ok tt, w') /\
    w' = log w [EvExists path; EvStat path; EvRead path].
Proof.
  intros Hfile Hsize Hsha. eexists. split; [|reflexivity].
  unfold download.
  erewrite bind_ok by apply path_exists_run.
  rewrite bool_decide_true by (rewrite Hfile; eauto).
  erewrite bind_ok by by eapply path_stat_run.
  cbn [st_size]. rewrite Hsize, Z.eqb_refl.
  erewrite (bind_ok (bind _ _)).
  2:{ erewrite bind_ok by by eapply get_sha256_run. reflexivity. }
  rewrite Hsha, String.eqb_refl. by rewrite !log_log.
Qed.

Lemma archive_path_parent f :
  is_dir f (CACHE_DIR host) = true -> f !! path = None ->
  is_dir f (parent path) = true.
Proof.
  unfold archive_path, joinpath. case_decide.
  - intros Hd Hn. destruct (is_dir_lookup _ _ Hd) as [->|(s & m & Hl)];
      [done|congruence].
  - intros Hd _. unfold parent. by rewrite removelast_last.
Qed.

Lemma is_dir_delete_file f p q c m :
  f !! p = Some (File c m) -> is_dir f q = true ->
  is_dir (delete p f) q = true.
Proof.
  intros Hf Hd. destruct (is_dir_lookup _ _ Hd) as [->|(s & m' & Hl)]; [done|].
  destruct q as [|x q]; [done|]. unfold is_dir.
  rewrite lookup_delete_ne by congruence. by rewrite Hl.
Qed.

(** A real download that ends in a RuntimeError: the cache check found no
    valid entry, the whole response went into the target, and [verify]
    raised. *)
Lemma download_runtime_error w msg w' :
  download host archive false w = (Raise (RuntimeError msg), w') ->
  exists resp m0 pre out,
    requests_get host (url archive) = Some resp /\
    (forall w0,
       verify host archive (Z.of_nat (length (concat (iter_content resp))))
         (concat (iter_content resp)) w0 = (Raise (RuntimeError msg), w0)) /\
    fs w' !! path = Some (File (concat (iter_content resp)) m0) /\
    new_events w w'
      = (pre ++ EvMkdir (CACHE_DIR host) :: EvHttpGet (url archive)
             :: EvCreate path :: out)%list /\
    Forall (fun e => is_stream_output e = true) out.
Proof.
  intros H.
  destruct (fs w !! path) as [[c m|s m]|] eqn:Hf.
  - destruct (decide (stale host archive c)) as [Hst|Hok].
    + rewrite (download_stale _ _ _ _ Hf Hst) in H.
      apply fetch_runtime_error in H
        as (f1 & resp & m0 & out & n & Hreq & Hv & Fo & ->).
      exists resp, m0, (cache_check archive path (File c m) ++ [EvUnlink path])%list, out.
      cbn [fs trace]. rewrite lookup_insert_eq.
      repeat split; auto. apply new_events_app. by rewrite <- !app_assoc.
    + unfold stale in Hok.
      destruct (download_cache_hit_run false w c m Hf) as (w1 & Hd & _).
      * destruct (decide (Z.of_nat (length c) = size archive)); tauto.
      * destruct (decide (sha256_hexdigest host c = sha256 archive)); tauto.
      * congruence.
  - destruct (download_directory _ _ _ _ _ _ Hf H) as [[? _]|[? _]]; congruence.
  - rewrite (download_absent _ _ Hf) in H.
    apply fetch_runtime_error in H
      as (f1 & resp & m0 & out & n & Hreq & Hv & Fo & ->).
    exists resp, m0, [EvExists path], out.
    cbn [fs trace log]. rewrite lookup_insert_eq.
    repeat split; auto. apply new_events_app. by rewrite <- !app_assoc.
Qed.

(** C2: a cache entry of the expected size and SHA-256 makes [download]
    return at once, for either value of the dry-run flag: the result is a
    normal return, the file system (the cached file included) and the clock
    are untouched, and the only operations are the three reads of the cache
    check - no network request and no file-system mutation. *)
Theorem download_cache_hit (dryrun : bool)
    (w : World) (content : list byte) (mode : Z) :
  fs w !! archive_path host archive = Some (File content mode) ->
  Z.of_nat (length content) = size archive ->
  sha256_hexdigest host content = sha256 archive ->
  exists w',
    download host archive dryrun w = (Ok tt, w') /\
    fs w' = fs w /\
    fs w' !! archive_path host archive = Some (File content mode) /\
    ticks w' = ticks w /\
    new_events w w' =
      [EvExists (archive_path host archive);
       EvStat (archive_path host archive);
       EvRead (archive_path host archive)] /\
    Forall (fun e => is_network e = false /\ is_fs_mutation e = false)
      (new_events w w').
Proof.
  intros Hfile Hsize Hsha.
  destruct (download_cache_hit_run dryrun w content mode Hfile Hsize Hsha)
    as (w' & Hrun & ->).
  exists (log w [EvExists path; EvStat path; EvRead path]).
  assert (Hnew : new_events w (log w [EvExists path; EvStat path; EvRead path])
                 = [EvExists path; EvStat path; EvRead path])
    by by apply new_events_app.
  split; [done|]. rewrite Hnew. repeat split; auto; repeat constructor.
Qed.

(** C1: a cached file of the wrong size or the wrong SHA-256 is deleted by a
    real (non-dry-run) [download] and the archive is fetched again: after the
    reads of the cache check the next operations are the unlink of the stale
    file and the start of the download; with the cache directory in place
    the HTTP request follows at once.  Whenever the call returns normally,
    the cache entry holds the bytes of the response, and its size and SHA-256
    are the expected ones. *)
Theorem download_replaces_stale_entry (w : World) (content : list byte)
    (mode : Z) :
  fs w !! archive_path host archive = Some (File content mode) ->
  stale host archive content ->
  exists r w' post,
    download host archive false w = (r, w') /\
    new_events w w'
      = (cache_check archive (archive_path host archive) (File content mode)
         ++ EvUnlink (archive_path host archive)
         :: EvMkdir (CACHE_DIR host) :: post)%list /\
    (is_dir (fs w) (CACHE_DIR host) = true ->
       exists post', post = EvHttpGet (url archive) :: post') /\
    (r = Ok tt ->
       exists resp m,
         requests_get host (url archive) = Some resp /\
         In (EvHttpGet (url archive)) post /\
         fs w' !! archive_path host archive
           = Some (File (concat (iter_content resp)) m) /\
         Z.of_nat (length (concat (iter_content resp))) = size archive /\
         sha256_hexdigest host (concat (iter_content resp))
           = sha256 archive).
Proof.
  intros Hf Hst. rewrite (download_stale _ _ _ _ Hf Hst).
  set (w1 := mkWorld _ _ _).
  destruct (fetch host archive path false w1) as [r w'] eqn:E.
  exists r, w'.
  assert (Hnew : forall post,
    trace w' = (trace w1 ++ EvMkdir (CACHE_DIR host) :: post)%list ->
    new_events w w'
    = (cache_check archive path (File content mode)
       ++ EvUnlink path :: EvMkdir (CACHE_DIR host) :: post)%list).
  { intros post Ht. apply new_events_app. rewrite Ht. unfold w1.
    cbn [trace]. by rewrite <- !app_assoc. }
  assert (Hdir : is_dir (fs w) (CACHE_DIR host) = true ->
    mkdir_parents (new_dir_size host) (new_dir_mode host)
      (rev (CACHE_DIR host)) (fs w1) = inr (fs w1)).
  { intros Hd. apply mkdir_parents_is_dir. unfold w1. cbn [fs].
    by eapply is_dir_delete_file. }
  apply fetch_real_outcome in E.
  inversion E as [e Hmk|f1 Hmk Hreq|f1 resp e out n Hmk Hreq Hop Fo
                 |f1 resp m0 out n r' Hmk Hreq Hop Fo Hr]; subst.
  - exists []. split; [done|]. split; [by apply Hnew|]. split; [|done].
    intros Hd. rewrite (Hdir Hd) in Hmk. discriminate.
  - eexists. split; [done|]. split; [by apply Hnew|]. split; [eauto|done].
  - eexists. split; [done|]. split; [by apply Hnew|]. split; [eauto|done].
  - eexists. split; [done|]. split; [by apply Hnew|]. split; [eauto|].
    intros ->. destruct (broken resp); [done|].
    specialize (Hr w). apply (f_equal fst) in Hr.
    apply verify_ok_inv in Hr as [Hsz Hsh].
    exists resp, m0. cbn [fs]. rewrite lookup_insert_eq.
    repeat split; auto. by left.
Qed.

Lemma download_directory_run w s m dryrun :
  fs w !! path = Some (Dir s m) ->
  download host archive dryrun w
  = if (s =? size archive)%Z
    then (Raise (IsADirectoryError path),
          log w [EvExists path; EvStat path; EvRead path])
    else if dryrun
    then (Ok tt, log w [EvExists path; EvStat path;
                        EvPrint (removing_msg host path);
                        EvPrint (download_msg host (url archive) path)])
    else (Raise (IsADirectoryError path),
          log w [EvExists path; EvStat path; EvUnlink path]).
Proof.
  intros Hf. unfold download.
  erewrite bind_ok by apply path_exists_run.
  rewrite bool_decide_true by (rewrite Hf; eauto).
  erewrite bind_ok by by eapply path_stat_run.
  cbn [st_size]. destruct (s =? size archive)%Z eqn:Hs.
  - unfold get_sha256, read_bytes, bind, emit, get_fs, raise. simpl.
    rewrite Hf. unfold log. simpl. by rewrite <- !app_assoc.
  - erewrite bind_ok by reflexivity.
    destruct dryrun.
    + erewrite bind_ok by apply print_run. unfold fetch.
      rewrite print_run, !log_log. reflexivity.
    + unfold path_unlink, bind, emit, get_fs, raise. simpl.
      rewrite Hf. unfold log. simpl. by rewrite <- !app_assoc.
Qed.

(** A real [download] whose log shows the HTTP request found no valid cache
    entry: before [fetch] it did the cache check and, for a stale file, the
    unlink, and nothing on the network. *)
Lemma download_real_request w r w' :
  download host archive false w = (r, w') ->
  In (EvHttpGet (url archive)) (new_events w w') ->
  exists w1 pre,
    fetch host archive path false w1 = (r, w')
    /\ trace w1 = (trace w ++ pre)%list
    /\ Forall (fun e => is_network e = false) pre.
Proof.
  intros H Hin.
  destruct (fs w !! path) as [[c m|s m]|] eqn:Hf.
  - destruct (decide (stale host archive c)) as [Hst|Hok].
    + rewrite (download_stale _ _ _ _ Hf Hst) in H.
      eexists _, _. split; [exact H|]. split; [reflexivity|].
      apply Forall_app. split; [|by repeat constructor].
      unfold cache_check. destruct (_ =? _)%Z; by repeat constructor.
    + exfalso. unfold stale in Hok.
      destruct (download_cache_hit_run false w c m Hf) as (w1 & Hd & ->).
      * destruct (decide (Z.of_nat (length c) = size archive)); tauto.
      * destruct (decide (sha256_hexdigest host c = sha256 archive)); tauto.
      * rewrite H in Hd. inversion Hd; subst.
        erewrite new_events_app in Hin by reflexivity.
        simpl in Hin. intuition discriminate.
  - exfalso. rewrite (download_directory_run _ _ _ _ Hf) in H.
    destruct (s =? size archive)%Z; inversion H; subst;
      (erewrite new_events_app in Hin by reflexivity);
      simpl in Hin; intuition discriminate.
  - rewrite (download_absent _ _ Hf) in H.
    exists (log w [EvExists path]), [EvExists path].
    split; [exact H|]. split; [reflexivity|]. by repeat constructor.
Qed.

(** Once the request was sent and answered, a file at the cache path is the
    one this call wrote: it holds the body of the response, and the call
    ended with the connection error of a broken stream or with whatever
    [verify] made of the bytes written. *)
Lemma download_streamed w r w' resp content mode :
  requests_get host (url archive) = Some resp ->
  download host archive false w = (r, w') ->
  In (EvHttpGet (url archive)) (new_events w w') ->
  fs w' !! path = Some (File content mode) ->
  content = concat (iter_content resp)
  /\ (if broken resp then r = Raise (RequestException (url archive))
      else forall w0,
        verify host archive (Z.of_nat (length content)) content w0 = (r, w0)).
Proof.
  intros Hreq H Hin Hfile.
  destruct (download_real_request _ _ _ H Hin) as (w1 & pre & Hf & Ht & Fp).
  apply fetch_real_outcome in Hf.
  inversion Hf as [e Hmk|f1 Hmk Hreq'|f1 resp' e out n Hmk Hreq' Hop Fo
                  |f1 resp' m0 out n r' Hmk Hreq' Hop Fo Hr]; subst.
  - exfalso.
    rewrite (new_events_app w _ (pre ++ [EvMkdir (CACHE_DIR host)])%list)
      in Hin by (cbn [log trace]; by rewrite Ht, <- app_assoc).
    apply in_app_or in Hin as [Hin|Hin].
    + rewrite List.Forall_forall in Fp. by specialize (Fp _ Hin).
    + simpl in Hin. intuition discriminate.
  - congruence.
  - exfalso. cbn [fs] in Hfile. unfold fs_open_wb in Hop.
    by rewrite Hfile in Hop.
  - assert (resp' = resp) by congruence. subst resp'.
    cbn [fs] in Hfile. rewrite lookup_insert_eq in Hfile.
    inversion Hfile; subst content mode. by split.
Qed.

(** C3, as the code has it: the size check comes before the hash check, for
    a body that was streamed to its end.  Take a real [download] that sent
    its request, got a response and left a file at the cache path.  The file
    holds the bytes written, which are the body of the response.  When the
    connection broke while the body was streamed the call raised the request
    exception - no integrity check was made, however many bytes are there.
    Otherwise, when the bytes written are not as many as expected, the call
    raised the size-mismatch error, whatever their hash.  And any call that
    raises the hash-mismatch error streamed the response to its end and
    wrote exactly the expected number of bytes. *)
Theorem download_size_mismatch_first (w w' : World) (r : Res unit)
    (resp : Response) :
  requests_get host (url archive) = Some resp ->
  download host archive false w = (r, w') ->
  (forall content mode,
     In (EvHttpGet (url archive)) (new_events w w') ->
     fs w' !! archive_path host archive = Some (File content mode) ->
     content = concat (iter_content resp)
     /\ (broken resp = true ->
         r = Raise (RequestException (url archive)))
     /\ (broken resp = false ->
         Z.of_nat (length content) <> size archive ->
         r = Raise (RuntimeError
                      (size_mismatch_msg archive
                         (Z.of_nat (length content))))))
  /\ (forall actual,
        r = Raise (RuntimeError (sha256_mismatch_msg archive actual)) ->
        broken resp = false
        /\ Z.of_nat (length (concat (iter_content resp))) = size archive).
Proof.
  intros Hreq H. split.
  - intros content mode Hin Hfile.
    destruct (download_streamed _ _ _ _ _ _ Hreq H Hin Hfile) as [Hc Hr].
    split; [done|]. split.
    + intros Hb. by rewrite Hb in Hr.
    + intros Hb Hsz. rewrite Hb in Hr. specialize (Hr w).
      rewrite (verify_size_mismatch host archive _ _ _ Hsz) in Hr.
      by inversion Hr.
  - intros actual ->.
    destruct (download_runtime_error _ _ _ H)
      as (resp' & m0 & pre & out & Hreq' & Hv & Hfile & Hev & _).
    assert (resp' = resp) by congruence. subst resp'.
    assert (Hin : In (EvHttpGet (url archive)) (new_events w w')).
    { rewrite Hev. apply in_or_app. right. right. by left. }
    destruct (download_streamed _ _ _ _ _ _ Hreq H Hin Hfile) as [_ Hr].
    destruct (broken resp); [done|]. split; [done|].
    specialize (Hv w). apply (f_equal fst) in Hv. cbn [fst] in Hv.
    apply verify_runtime_msg in Hv as [[_ Hmsg]|(Hsz & _ & Hmsg)].
    + symmetry in Hmsg. by apply mismatch_msgs_differ in Hmsg.
    + done.
Qed.

(** C4: when a real [download] raises one of its two integrity errors, this
    invocation leaves the downloaded file where it wrote it: the cache entry
    holds exactly the bytes of the response, and once the target was opened
    the invocation did nothing but write chunks and progress output - no
    deletion.  The file goes away in the next invocation, whose cache check
    finds it invalid and unlinks it before anything else is changed. *)
Theorem integrity_error_leaves_file (w w' : World) (msg : string) :
  download host archive false w = (Raise (RuntimeError msg), w') ->
  exists resp m pre out,
    requests_get host (url archive) = Some resp /\
    (msg = size_mismatch_msg archive
             (Z.of_nat (length (concat (iter_content resp))))
     \/ msg = sha256_mismatch_msg archive
                (sha256_hexdigest host (concat (iter_content resp)))) /\
    fs w' !! archive_path host archive
      = Some (File (concat (iter_content resp)) m) /\
    new_events w w'
      = (pre ++ EvMkdir (CACHE_DIR host) :: EvHttpGet (url archive)
             :: EvCreate (archive_path host archive) :: out)%list /\
    Forall (fun e => is_stream_output e = true) out /\
    (exists r2 w2 post2,
       download host archive false w' = (r2, w2) /\
       new_events w' w2
       = (cache_check archive (archive_path host archive)
            (File (concat (iter_content resp)) m)
          ++ EvUnlink (archive_path host archive) :: post2)%list).
Proof.
  intros H.
  apply download_runtime_error in H
    as (resp & m0 & pre & out & Hreq & Hv & Hf & Hnew & Fo).
  exists resp, m0, pre, out. repeat split; auto.
  - pose proof (Hv w) as Hw. apply (f_equal fst) in Hw.
    apply verify_runtime_msg in Hw as [[_ ->]|(_ & _ & ->)]; auto.
  - assert (Hst : stale host archive (concat (iter_content resp))).
    { pose proof (Hv w) as Hw. apply (f_equal fst) in Hw.
      by apply verify_raises_stale in Hw. }
    rewrite (download_stale _ _ _ _ Hf Hst).
    set (w1 := mkWorld _ _ _).
    destruct (fetch host archive path false w1) as [r2 w2] eqn:E.
    destruct (fetch_events _ _ _ _ _ _ _ E) as (evs & Ht & _).
    exists r2, w2, evs. split; [done|].
    apply new_events_app. rewrite Ht. unfold w1. cbn [trace].
    by rewrite <- !app_assoc.
Qed.

Lemma wrong_size_run (w : World) (n : Node) (dryrun : bool) :
  fs w !! archive_path host archive = Some n ->
  st_size n <> size archive ->
  (exists r w' post,
     download host archive dryrun w = (r, w') /\
     new_events w w'
       = EvExists (archive_path host archive)
         :: EvStat (archive_path host archive)
         :: (if dryrun
             then EvPrint (removing_msg host (archive_path host archive))
             else EvUnlink (archive_path host archive))
         :: post /\
     Forall (fun e => is_fetch_event e = true) post /\
     Forall (fun e => forall p, e <> EvRead p) (new_events w w')).
Proof.
  intros Hf Hsz.
  assert (Hrest : forall evs,
    Forall (fun e => is_fetch_event e = true) evs ->
    Forall (fun e => forall p, e <> EvRead p) evs).
  { intros evs Hall. eapply Forall_impl; [exact Hall|]. by intros []. }
  destruct (download host archive dryrun w) as [r w'] eqn:E.
  exists r, w'. unfold download in E.
  erewrite bind_ok in E by apply path_exists_run.
  rewrite bool_decide_true in E by (rewrite Hf; eauto).
  erewrite bind_ok in E by by eapply path_stat_run.
  apply Z.eqb_neq in Hsz. rewrite Hsz in E.
  erewrite bind_ok in E by reflexivity. rewrite log_log in E. cbn [app] in E.
  assert (Hfin : forall w1 post,
    trace w1 = (trace w ++ [EvExists path; EvStat path;
                  if dryrun then EvPrint (removing_msg host path)
                  else EvUnlink path])%list ->
    trace w' = (trace w1 ++ post)%list ->
    Forall (fun e => is_fetch_event e = true) post ->
    exists post0,
      (r, w') = (r, w') /\
      new_events w w'
      = EvExists path :: EvStat path
        :: (if dryrun then EvPrint (removing_msg host path)
            else EvUnlink path) :: post0 /\
      Forall (fun e => is_fetch_event e = true) post0 /\
      Forall (fun e => forall p, e <> EvRead p) (new_events w w')).
  { intros w1 post H1 H2 Fp. exists post.
    assert (Hn : new_events w w'
                 = EvExists path :: EvStat path
                   :: (if dryrun then EvPrint (removing_msg host path)
                       else EvUnlink path) :: post).
    { apply new_events_app. rewrite H2, H1. by rewrite <- app_assoc. }
    rewrite Hn. split; [done|]. split; [done|]. split; [done|].
    repeat constructor; try done; [by destruct dryrun|by apply Hrest]. }
  destruct dryrun.
  - erewrite bind_ok in E by apply print_run. rewrite log_log in E.
    destruct (fetch_events _ _ _ _ _ _ _ E) as (post & Ht & Fp).
    eapply (Hfin _ post); [|exact Ht|exact Fp]. reflexivity.
  - destruct n as [c m|s m].
    + erewrite bind_ok in E by by eapply path_unlink_run.
      destruct (fetch_events _ _ _ _ _ _ _ E) as (post & Ht & Fp).
      eapply (Hfin _ post); [|exact Ht|exact Fp].
      cbn [trace log]. by rewrite <- app_assoc.
    + erewrite bind_raise in E.
      2:{ unfold path_unlink, bind, emit, get_fs, raise. simpl.
          rewrite Hf. reflexivity. }
      inversion E; subst. eapply (Hfin _ []); [|by rewrite app_nil_r|done].
      cbn [trace log]. by rewrite <- app_assoc.
Qed.

(** C10: the size comparison guards the hash.  When the cache entry exists
    with a size other than the expected one, [download] goes from the stat
    straight to the removal of the entry (the unlink, or its announcement in
    a dry run) and never opens a file for reading: no SHA-256 is computed.
    Conversely, whenever a call of [download], from any state, does read the
    cached file, the entry has the expected size. *)
Theorem wrong_size_skips_hash (w : World) (n : Node) (dryrun : bool) :
  fs w !! archive_path host archive = Some n ->
  st_size n <> size archive ->
  (exists r w' post,
     download host archive dryrun w = (r, w') /\
     new_events w w'
       = EvExists (archive_path host archive)
         :: EvStat (archive_path host archive)
         :: (if dryrun
             then EvPrint (removing_msg host (archive_path host archive))
             else EvUnlink (archive_path host archive))
         :: post /\
     Forall (fun e => is_fetch_event e = true) post /\
     Forall (fun e => forall p, e <> EvRead p) (new_events w w'))
  /\ (forall dryrun0 w0 r0 w0',
        download host archive dryrun0 w0 = (r0, w0') ->
        In (EvRead (archive_path host archive)) (new_events w0 w0') ->
        exists n0, fs w0 !! archive_path host archive = Some n0
                   /\ st_size n0 = size archive).
Proof.
  intros Hf Hsz. split; [by apply (wrong_size_run w n dryrun)|].
  intros dryrun0 w0 r0 w0' Hrun Hin.
  destruct (fs w0 !! path) as [n0|] eqn:Hf0.
  - exists n0. split; [done|].
    destruct (decide (st_size n0 = size archive)) as [|Hne]; [done|].
    destruct (wrong_size_run w0 n0 dryrun0 Hf0 Hne)
      as (r1 & w1 & post & Hrun1 & _ & _ & Hno).
    rewrite Hrun in Hrun1. inversion Hrun1; subst.
    rewrite List.Forall_forall in Hno. by destruct (Hno _ Hin path).
  - rewrite (download_absent _ _ Hf0) in Hrun.
    destruct (fetch_events _ _ _ _ _ _ _ Hrun) as (evs & Ht & Fe).
    rewrite (new_events_app w0 w0' (EvExists path :: evs)) in Hin.
    + destruct Hin as [|Hin]; [done|].
      rewrite List.Forall_forall in Fe. by apply Fe in Hin.
    + rewrite Ht. cbn [trace log]. by rewrite <- app_assoc.
Qed.

Lemma omap_announce_stream out :
  Forall (fun e => is_stream_output e = true) out ->
  omap (announce host) out = [].
Proof.
  induction 1 as [|e out He _ IH]; [done|].
  destruct e; try discriminate; simpl; exact IH.
Qed.

(** What a real fetch does is announced by the download message, and it
    touches the target, the cache directory and its ancestors only. *)
Lemma fetch_real_cover w r w' :
  fetch host archive path false w = (r, w') ->
  exists evs,
    trace w' = (trace w ++ evs)%list /\
    omap (announce host) evs
      `sublist_of` [download_msg host (url archive) path] /\
    (forall q, q <> path -> ~ q `prefix_of` CACHE_DIR host ->
               fs w' !! q = fs w !! q).
Proof.
  intros H. apply fetch_real_outcome in H.
  assert (Hfr : forall f1,
    mkdir_parents (new_dir_size host) (new_dir_mode host)
      (rev (CACHE_DIR host)) (fs w) = inr f1 ->
    forall q, ~ q `prefix_of` CACHE_DIR host -> f1 !! q = fs w !! q).
  { intros f1 Hmk q Hq. eapply mkdir_parents_frame; [exact Hmk|].
    by rewrite rev_involutive. }
  inversion H as [e Hmk|f1 Hmk Hreq|f1 resp e out n Hmk Hreq Hop Fo
                 |f1 resp m0 out n r' Hmk Hreq Hop Fo Hr]; subst;
    cbn [log fs trace]; (eexists; split; [reflexivity|]).
  - split; [apply sublist_nil_l|done].
  - split; [done|]. intros q _ Hq. by apply Hfr.
  - split; [|intros q _ Hq; by apply Hfr].
    cbn [omap list_omap announce]. by rewrite (omap_announce_stream _ Fo).
  - split.
    + cbn [omap list_omap announce]. by rewrite (omap_announce_stream _ Fo).
    + intros q Hne Hq. rewrite lookup_insert_ne by done. by apply Hfr.
Qed.

Lemma needs_fetch_stale c m :
  needs_fetch host archive (Some (File c m)) = true <-> stale host archive c.
Proof.
  unfold needs_fetch, stale.
  rewrite negb_true_iff, andb_false_iff, Z.eqb_neq, String.eqb_neq. tauto.
Qed.

Lemma printed_cache_check n : printed (cache_check archive path n) = [].
Proof. unfold cache_check. by destruct (st_size n =? size archive)%Z. Qed.

Lemma announce_cache_check n :
  omap (announce host) (cache_check archive path n) = [].
Proof. unfold cache_check. by destruct (st_size n =? size archive)%Z. Qed.

Lemma observation_cache_check n :
  Forall (fun e => is_observation e = true) (cache_check archive path n).
Proof.
  unfold cache_check.
  destruct (st_size n =? size archive)%Z; by repeat constructor.
Qed.

(** A dry-run [download] only logs: reads of the cache check and messages. *)
Lemma download_dry_run wd :
  exists rd evsd,
    download host archive true wd = (rd, log wd evsd) /\
    Forall (fun e => is_observation e = true \/ is_print e = true) evsd /\
    (rd = Ok tt ->
     printed evsd = dry_download_messages host archive (fs wd !! path)) /\
    (rd = Ok tt \/ exists m, fs wd !! path = Some (Dir (size archive) m)).
Proof.
  unfold dry_download_messages.
  destruct (fs wd !! path) as [[c m|s m]|] eqn:Hf.
  - destruct (needs_fetch host archive (Some (File c m))) eqn:Hn.
    + apply needs_fetch_stale in Hn.
      rewrite (download_stale _ _ _ _ Hf Hn). unfold fetch.
      rewrite print_run, log_log. eexists _, _. split; [reflexivity|].
      split; [|split; [|by left]].
      * rewrite <- app_assoc. apply Forall_app. split.
        -- eapply Forall_impl; [apply observation_cache_check|]. by left.
        -- repeat constructor; by right.
      * intros _. unfold printed. rewrite !omap_app.
        fold (printed (cache_check archive path (File c m))).
        by rewrite printed_cache_check.
    + unfold needs_fetch in Hn.
      apply negb_false_iff, andb_true_iff in Hn as [Hs Hh].
      apply Z.eqb_eq in Hs. apply String.eqb_eq in Hh.
      destruct (download_cache_hit_run true wd c m Hf Hs Hh) as (w' & -> & ->).
      eexists _, _. split; [reflexivity|].
      split; [repeat constructor; by left|]. split; [done|by left].
  - rewrite (download_directory_run _ _ _ _ Hf). cbn [needs_fetch].
    destruct (s =? size archive)%Z eqn:Hs.
    + apply Z.eqb_eq in Hs. subst s. eexists _, _. split; [reflexivity|].
      split; [repeat constructor; by left|]. split; [done|]. right. eauto.
    + eexists _, _. split; [reflexivity|].
      split; [|split; [done|by left]].
      repeat constructor; (by left) || by right.
  - rewrite (download_absent _ _ Hf). unfold fetch.
    rewrite print_run, log_log. eexists _, _. split; [reflexivity|].
    split; [|split; [done|by left]].
    repeat constructor; (by left) || by right.
Qed.

(** What a real [download] does is covered by what the dry run prints for
    the same cache entry; it touches the entry, the cache directory and its
    ancestors only. *)
Lemma download_real_cover w r w' :
  download host archive false w = (r, w') ->
  exists evs,
    trace w' = (trace w ++ evs)%list /\
    omap (announce host) evs
      `sublist_of` dry_download_messages host archive (fs w !! path) /\
    (forall q, q <> path -> ~ q `prefix_of` CACHE_DIR host ->
               fs w' !! q = fs w !! q) /\
    (r = Ok tt -> forall m, fs w !! path <> Some (Dir (size archive) m)).
Proof.
  unfold dry_download_messages.
  destruct (fs w !! path) as [[c m|s m]|] eqn:Hf.
  - destruct (needs_fetch host archive (Some (File c m))) eqn:Hn.
    + apply needs_fetch_stale in Hn.
      rewrite (download_stale _ _ _ _ Hf Hn). intros H.
      apply fetch_real_cover in H as (evs & Ht & Hs & Hfr).
      cbn [fs trace] in Ht, Hfr.
      exists (cache_check archive path (File c m) ++ [EvUnlink path] ++ evs)%list.
      split; [by rewrite Ht, <- !app_assoc|]. split; [|split; [|done]].
      * rewrite !omap_app, announce_cache_check. simpl.
        by apply sublist_skip.
      * intros q Hne Hq. rewrite Hfr by done. by apply lookup_delete_ne.
    + unfold needs_fetch in Hn.
      apply negb_false_iff, andb_true_iff in Hn as [Hs Hh].
      apply Z.eqb_eq in Hs. apply String.eqb_eq in Hh.
      destruct (download_cache_hit_run false w c m Hf Hs Hh) as (w1 & -> & ->).
      intros H; inversion H; subst. eexists. split; [reflexivity|].
      split; [done|]. split; [done|]. done.
  - rewrite (download_directory_run _ _ _ _ Hf). cbn [needs_fetch].
    destruct (s =? size archive)%Z eqn:Hs; intros H; inversion H; subst;
      (eexists; split; [reflexivity|]).
    + split; [done|]. split; [done|]. done.
    + split; [|split; [done|done]]. simpl. apply sublist_skip, sublist_nil_l.
  - rewrite (download_absent _ _ Hf). intros H.
    apply fetch_real_cover in H as (evs & Ht & Hs & Hfr).
    cbn [log fs trace] in Ht, Hfr.
    exists (EvExists path :: evs). split; [by rewrite Ht, <- app_assoc|].
    split; [done|]. split; [done|]. done.
Qed.

Lemma covers_download Q :
  Forall (fun q => q <> path /\ ~ q `prefix_of` CACHE_DIR host) Q ->
  covers host (agree_on (path :: Q)) (agree_on Q)
    (download host archive false) (download host archive true).
Proof.
  intros HQ w wd HR r w' rd wd' Hreal Hdry.
  destruct (download_real_cover _ _ _ Hreal) as (evs & Ht & Hs & Hfr & Hok).
  destruct (download_dry_run wd) as (rd1 & evsd & Hd & _ & Hpr & Hrd).
  rewrite Hdry in Hd. inversion Hd; subst rd1 wd'. clear Hd.
  assert (Hp : fs w !! path = fs wd !! path) by (apply HR; by left).
  exists evs, evsd. split; [done|]. split; [done|]. split.
  - destruct Hrd as [->|[m Hdir]].
    + rewrite Hpr by done. by rewrite <- Hp.
    + rewrite Hp, Hdir in Hs. unfold dry_download_messages in Hs.
      cbn [needs_fetch] in Hs. rewrite Z.eqb_refl in Hs. cbn [negb] in Hs.
      apply sublist_nil_r in Hs. rewrite Hs. apply sublist_nil_l.
  - intros ->. split.
    + destruct Hrd as [->|[m Hdir]]; [done|].
      rewrite <- Hp in Hdir. by destruct (Hok eq_refl m).
    + intros q Hq. rewrite List.Forall_forall in HQ.
      destruct (HQ q Hq) as [Hne Hpre]. cbn [log fs].
      rewrite Hfr by done. apply HR. by right.
Qed.

(** Every event of [download] is one of its own, and what it prints is one
    of its two dry-run messages. *)
Lemma download_emits dryrun :
  emits (fun e => is_download_event e = true
                  /\ forall m, e = EvPrint m -> download_message host m)
    (download host archive dryrun).
Proof.
  assert (Hev : forall e, is_download_event e = true ->
                  is_print e = false ->
                  is_download_event e = true
                  /\ forall m, e = EvPrint m -> download_message host m).
  { intros e He Hp. split; [done|]. intros m ->. discriminate. }
  assert (Hfetch : forall w r w',
    fetch host archive path dryrun w = (r, w') ->
    exists evs, trace w' = (trace w ++ evs)%list /\
      Forall (fun e => is_download_event e = true
                       /\ forall m, e = EvPrint m -> download_message host m)
        evs).
  { destruct dryrun.
    - unfold fetch. intros w r w'. rewrite print_run.
      intros H; inversion H; subst. eexists. split; [reflexivity|].
      repeat constructor. intros m Hm. inversion Hm; subst.
      exists archive. by right.
    - intros w r w' H. apply fetch_real_outcome in H.
      assert (Hout : forall out,
        Forall (fun e => is_stream_output e = true) out ->
        Forall (fun e => is_download_event e = true
                  /\ forall m, e = EvPrint m -> download_message host m) out).
      { intros out Ho. eapply Forall_impl; [exact Ho|].
        intros [] ?; by apply Hev. }
      inversion H; subst; cbn [log trace];
        (eexists; split; [reflexivity|]);
        repeat (constructor; [by apply Hev|]); auto. }
  unfold download.
  apply emits_bind; [apply emits_bind; [apply emits_emit; by apply Hev|]|].
  { intros _. apply emits_bind; auto with effects. }
  intros [|]; [|exact Hfetch].
  apply emits_bind.
  { unfold path_stat. apply emits_bind; [apply emits_emit; by apply Hev|].
    intros _. apply emits_bind; [auto with effects|].
    intros f. destruct (f !! path); auto with effects. }
  intros st. apply emits_bind.
  { destruct (st_size st =? size archive)%Z; [|auto with effects].
    apply emits_bind; [|auto with effects].
    unfold get_sha256, read_bytes.
    apply emits_bind; [|auto with effects].
    apply emits_bind; [apply emits_emit; by apply Hev|].
    intros _. apply emits_bind; [auto with effects|].
    intros f. destruct (f !! path) as [[]|]; auto with effects. }
  intros [|]; [auto with effects|].
  apply emits_bind; [|intros _; exact Hfetch].
  destruct dryrun.
  - apply emits_emit. split; [done|]. intros m Hm. inversion Hm; subst.
    exists archive. by left.
  - unfold path_unlink. apply emits_bind; [apply emits_emit; by apply Hev|].
    intros _. apply emits_bind; [auto with effects|].
    intros f. destruct (f !! path) as [[]|]; auto with effects.
Qed.

End CacheCheck.

(** ** ArchiveInfo: equality, hash and membership *)

Lemma ArchiveInfo_eq_spec (a b : ArchiveInfo) :
  ArchiveInfo_eq a b = true <-> a = b.
Proof.
  unfold ArchiveInfo_eq. rewrite !andb_true_iff, !String.eqb_eq, Z.eqb_eq.
  destruct a, b; simpl. split.
  - intros [[-> ->] ->]. reflexivity.
  - intros H. by inversion H.
Qed.

(** C8, the statement as the specification has it, is not what the code
    does: a record that shares the SHA-256 of NINJA_WIN but names another
    URL is not equal to it, and is not found in a list that holds NINJA_WIN. *)
Lemma same_sha256_not_same_archive :
  ~ (forall a b : ArchiveInfo,
       sha256 a = sha256 b ->
       ArchiveInfo_eq a b = true
       /\ forall l, list_contains l a = list_contains l b).
Proof.
  intros H.
  destruct (H NINJA_WIN
              {| url := "https://mirror.example.org/ninja-win.zip";
                 size := size NINJA_WIN;
                 sha256 := sha256 NINJA_WIN |} eq_refl) as [Heq _].
  vm_compute in Heq. discriminate.
Qed.

(** C8, as the code has it: two records are the same archive for [==], and
    so for the membership tests [x in archives] of [main], exactly when url,
    size and sha256 all agree.  The SHA-256 alone decides the hash value
    only: records with the same SHA-256 hash alike, and so do equal
    records. *)
Theorem ArchiveInfo_identity (host : Host) (a b : ArchiveInfo) :
  (ArchiveInfo_eq a b = true
   <-> url a = url b /\ size a = size b /\ sha256 a = sha256 b)
  /\ (forall l, list_contains l a = true <-> In a l)
  /\ (sha256 a = sha256 b -> ArchiveInfo_hash host a = ArchiveInfo_hash host b)
  /\ (ArchiveInfo_eq a b = true
      -> ArchiveInfo_hash host a = ArchiveInfo_hash host b).
Proof.
  repeat split.
  - by apply ArchiveInfo_eq_spec in H as ->.
  - by apply ArchiveInfo_eq_spec in H as ->.
  - by apply ArchiveInfo_eq_spec in H as ->.
  - intros (Hu & Hs & Hh). apply ArchiveInfo_eq_spec.
    destruct a, b; simpl in *. by subst.
  - unfold list_contains. rewrite existsb_exists.
    intros (e & Hin & ->%ArchiveInfo_eq_spec). done.
  - intros Hin. unfold list_contains. rewrite existsb_exists.
    exists a. split; [done|]. by apply ArchiveInfo_eq_spec.
  - unfold ArchiveInfo_hash. by intros ->.
  - intros ->%ArchiveInfo_eq_spec. reflexivity.
Qed.

(** ** extract_ninja *)

(** [mkdir] never replaces an entry. *)
Lemma mkdir_parents_preserves ds dm rp : forall f f' q n,
  mkdir_parents ds dm rp f = inr f' -> f !! q = Some n -> f' !! q = Some n.
Proof.
  induction rp as [|seg rp IH]; intros f f' q n H Hq.
  { by inversion H; subst. }
  cbn [mkdir_parents] in H.
  destruct (f !! rev (seg :: rp)) as [[c m|s m]|] eqn:Hp; try congruence.
  assert (Hne : rev (seg :: rp) <> q) by congruence.
  destruct (is_dir f (rev rp)).
  { inversion H; subst. by rewrite lookup_insert_ne. }
  destruct (f !! rev rp); [congruence|].
  destruct (mkdir_parents ds dm rp f) as [|f1] eqn:E; [done|].
  inversion H; subst. rewrite lookup_insert_ne by done. by eapply IH.
Qed.

(** The extraction writes its target and removes nothing. *)
Lemma fs_zip_extract_preserves host members member dest f f' q n :
  fs_zip_extract host members member dest f = inr f' ->
  q <> joinpath dest member ->
  f !! q = Some n -> f' !! q = Some n.
Proof.
  unfold fs_zip_extract. intros H Hne Hq.
  destruct (zip_find member members) as [data|]; [|done].
  assert (H1 : exists f1,
    match f !! dest with
    | Some _ => inr f
    | None => mkdir_parents (new_dir_size host) (new_dir_mode host)
                (rev dest) f
    end = inr f1 /\ f1 !! q = Some n).
  { destruct (f !! dest).
    - by exists f.
    - destruct (mkdir_parents _ _ _ _) as [|f1] eqn:E; [done|].
      exists f1. split; [done|]. by eapply mkdir_parents_preserves. }
  destruct H1 as (f1 & E1 & Hq1). rewrite E1 in H.
  destruct (fs_open_wb _ _ f1) as [|f2] eqn:E2; [done|].
  apply fs_open_wb_ok in E2 as [m0 ->].
  unfold fs_write in H. rewrite lookup_insert_eq in H.
  inversion H; subst. by rewrite !lookup_insert_ne.
Qed.

(** A real [extract_ninja], however it ends, keeps every entry of the file
    system other than the extracted tool itself: nothing that was in the
    destination before is removed. *)
Lemma extract_ninja_removes_nothing (host : Host) w r w' q n :
  extract_ninja host false w = (r, w') ->
  fs w !! q = Some n ->
  (forall exe, q <> joinpath (ninja_dest host) exe) ->
  fs w' !! q = Some n.
Proof.
  intros H Hq Hne.
  assert (Hgo : forall (archive : ArchiveInfo) exe (chmod : bool),
    (zip_extract host (joinpath (CACHE_DIR host) (filename archive)) exe
       (ninja_dest host) ;;
     if chmod then
       st <- path_stat (joinpath (ninja_dest host) exe) ;;
       path_chmod (joinpath (ninja_dest host) exe)
         (Z.lor (st_mode st) S_IXUSR)
     else ret tt) w = (r, w') ->
    fs w' !! q = Some n).
  { intros archive exe chmod. specialize (Hne exe).
    unfold zip_extract, zip_open, read_bytes, path_stat, path_chmod, bind,
      emit, get_fs, update_fs, raise, ret. simpl.
    intros E. repeat (case_match; simplify_eq/=);
      rewrite ?lookup_insert_ne by done;
      eauto using fs_zip_extract_preserves. }
  unfold extract_ninja in H. destruct (is_mac host).
  - by apply (Hgo NINJA_MAC "ninja" true).
  - destruct (is_windows host).
    + by apply (Hgo NINJA_WIN "ninja.exe" false).
    + by inversion H; subst.
Qed.

(** C9: on a platform that is neither Windows nor macOS, [extract_ninja]
    returns at once for either value of the dry-run flag: the world it
    returns is the one it was given - no file-system operation was made (the
    log did not grow) and nothing was printed. *)
Theorem extract_ninja_other_platform (host : Host) (dryrun : bool)
    (w : World) :
  is_windows host = false ->
  is_mac host = false ->
  extract_ninja host dryrun w = (Ok tt, w)
  /\ new_events w w = [].
Proof.
  intros Hw Hm. unfold extract_ninja. rewrite Hm, Hw. split; [done|].
  unfold new_events. apply drop_all.
Qed.

(** ** main *)

Section Pipeline.

Variable host : Host.

Lemma download_not_provisioning_message m :
  download_message host m -> ~ provisioning_message host m.
Proof.
  unfold download_message, provisioning_message, removing_msg, download_msg,
    exec_command_msg, rmtree_msg, extracting_msg, subprocess_run_msg.
  intros [a [-> | ->]] [H|[H|[(exe & src & H)|H]]]; simpl in H; discriminate.
Qed.

Lemma printed_app a b : printed (a ++ b) = (printed a ++ printed b)%list.
Proof. apply omap_app. Qed.

Lemma covers_ret (R : World -> World -> Prop) :
  covers host R R (ret tt) (ret tt).
Proof.
  intros w wd HR r w' rd wd' H1 H2. inversion H1; inversion H2; subst.
  exists [], []. rewrite !app_nil_r. repeat split; auto.
Qed.

Lemma covers_weaken (R R1 R' R1' : World -> World -> Prop) real dry :
  (forall w wd, R1 w wd -> R w wd) ->
  (forall w wd, R' w wd -> R1' w wd) ->
  covers host R R' real dry -> covers host R1 R1' real dry.
Proof.
  intros H1 H2 Hc w wd HR r w' rd wd' Hr Hd.
  destruct (Hc w wd (H1 _ _ HR) _ _ _ _ Hr Hd) as (evs & evsd & ? & ? & ? & Hok).
  exists evs, evsd. repeat split; auto; by destruct (Hok ltac:(done)); auto.
Qed.

Lemma covers_bind (R R' R'' : World -> World -> Prop) m1 d1 m2 d2 :
  covers host R R' m1 d1 ->
  covers host R' R'' m2 d2 ->
  emits (fun _ => True) d2 ->
  covers host R R'' (m1 ;; m2) (d1 ;; d2).
Proof.
  intros H1 H2 Hem w wd HR r w' rd wd' Hreal Hdry.
  unfold bind in Hreal, Hdry.
  destruct (m1 w) as [r1 w1] eqn:E1. destruct (d1 wd) as [rd1 wd1] eqn:Ed1.
  destruct (H1 _ _ HR _ _ _ _ E1 Ed1) as (evs1 & evsd1 & T1 & Td1 & S1 & Hok1).
  destruct r1 as [[]|e1].
  - destruct (Hok1 eq_refl) as [-> HR'].
    destruct (H2 _ _ HR' _ _ _ _ Hreal Hdry)
      as (evs2 & evsd2 & T2 & Td2 & S2 & Hok2).
    exists (evs1 ++ evs2)%list, (evsd1 ++ evsd2)%list.
    split; [by rewrite T2, T1, app_assoc|].
    split; [by rewrite Td2, Td1, app_assoc|].
    split; [|done].
    rewrite omap_app, printed_app. by apply sublist_app.
  - inversion Hreal; subst r w'. destruct rd1 as [[]|ed1].
    + destruct (Hem _ _ _ Hdry) as (evsd2 & Td2 & _).
      exists evs1, (evsd1 ++ evsd2)%list.
      split; [done|]. split; [by rewrite Td2, Td1, app_assoc|].
      split; [|done].
      rewrite printed_app. by apply sublist_inserts_r.
    + inversion Hdry; subst rd wd'. by exists evs1, evsd1.
Qed.

(** The download loop: the cache paths of the archives are distinct, and
    none is the cache directory or above it. *)
Lemma covers_for_each l :
  NoDup (map (archive_path host) l) ->
  Forall (fun a => ~ archive_path host a `prefix_of` CACHE_DIR host) l ->
  covers host (agree_on (map (archive_path host) l)) (fun _ _ => True)
    (for_each (fun a => download host a false) l)
    (for_each (fun a => download host a true) l).
Proof.
  induction l as [|a l IH]; intros Hnd Hpre.
  - eapply covers_weaken; [| |apply (covers_ret (fun _ _ => True))]; done.
  - cbn [for_each map]. apply NoDup_cons in Hnd as [Hni Hnd].
    apply Forall_cons in Hpre as [Ha Hpre].
    eapply covers_bind.
    + apply covers_download. rewrite List.Forall_forall.
      intros q Hq. split.
      * intros ->. apply Hni. by apply list_elem_of_In.
      * apply in_map_iff in Hq as (b & <- & Hb).
        rewrite List.Forall_forall in Hpre. by apply Hpre.
    + by apply IH.
    + apply emits_for_each. intros b _.
      eapply emits_weaken; [|apply download_emits]. done.
Qed.

Lemma bind_ret_tt (m : M unit) w : (m ;; ret tt) w = m w.
Proof. unfold bind, ret. by destruct (m w) as [[[ ]|e] w1]. Qed.

(** C6: with the cache-only flag, [main] is the download loop over the
    selected archives and nothing more, whatever the other flags are (the
    no-submodules flag included): same result, same final state, and no
    operation of the restore, the extraction or the submodule sync in the
    log - neither the operation itself nor its dry-run announcement. *)
Theorem cache_only_stops_after_download
    (dry noninja noqt nowix nosubmodules : bool) (w : World) :
  exists r w',
    main host (mkArgs dry noninja noqt nowix nosubmodules true) w = (r, w')
    /\ for_each (fun archive => download host archive dry)
         (select_archives host
            (mkArgs dry noninja noqt nowix nosubmodules true)) w
       = (r, w')
    /\ Forall (fun e => is_provisioning e = false
                        /\ forall m, e = EvPrint m
                                     -> ~ provisioning_message host m)
         (new_events w w').
Proof.
  set (args := mkArgs dry noninja noqt nowix nosubmodules true).
  destruct (for_each (fun archive => download host archive dry)
              (select_archives host args) w) as [r w'] eqn:E.
  exists r, w'. split; [|split; [done|]].
  - unfold main. cbn [cache_only dryrun args]. by rewrite bind_ret_tt.
  - assert (Hem : emits
      (fun e => is_download_event e = true
                /\ forall m, e = EvPrint m -> download_message host m)
      (for_each (fun archive => download host archive dry)
         (select_archives host args))).
    { apply emits_for_each. intros a _. apply download_emits. }
    destruct (Hem _ _ _ E) as (evs & Ht & Fe).
    rewrite (new_events_app _ _ _ Ht).
    eapply Forall_impl; [exact Fe|].
    intros e [He Hm]. split.
    + by destruct e.
    + intros m ->. by apply download_not_provisioning_message, Hm.
Qed.

(** *** The steps after the downloads, real against dry *)

Lemma covers_restore :
  covers host (fun _ _ => True) (fun _ _ => True)
    (restore_dotnet_tools host false) (restore_dotnet_tools host true).
Proof.
  intros w wd _ r w' rd wd' Hreal Hdry.
  unfold restore_dotnet_tools in Hdry. rewrite print_run in Hdry.
  inversion Hdry; subst rd wd'.
  exists [EvPopen dotnet_args (ABS_MOZC_SRC_DIR host)]. eexists.
  split; [|split; [reflexivity|split; [reflexivity|done]]].
  unfold restore_dotnet_tools, exec_command, bind, emit, get_fs, put_fs,
    raise, ret in Hreal. simpl in Hreal.
  destruct (popen_run host _ _ _) as [[f' code]|];
    [destruct (negb _)|]; by inversion Hreal.
Qed.

Lemma covers_submodules :
  covers host (fun _ _ => True) (fun _ _ => True)
    (update_submodules host false) (update_submodules host true).
Proof.
  intros w wd _ r w' rd wd' Hreal Hdry.
  unfold update_submodules in Hdry. rewrite print_run in Hdry.
  inversion Hdry; subst rd wd'.
  exists [EvShell submodule_command]. eexists.
  split; [|split; [reflexivity|split; [reflexivity|done]]].
  unfold update_submodules, subprocess_run, bind, emit, get_fs, put_fs,
    raise, ret in Hreal. simpl in Hreal.
  destruct (shell_run host _ _) as [f' code].
  destruct (code =? 0)%Z; by inversion Hreal.
Qed.

Lemma omap_announce_none evs :
  Forall (fun e => announce host e = None) evs ->
  omap (announce host) evs = [].
Proof.
  induction 1 as [|e evs He _ IH]; [done|]. simpl. by rewrite He.
Qed.

Lemma zip_extract_events src exe dest w r w' :
  zip_extract host src exe dest w = (r, w') ->
  exists evs,
    trace w' = (trace w ++ EvRead src :: evs)%list /\
    (evs = [] /\ r <> Ok tt \/ evs = [EvZipExtract src exe dest]).
Proof.
  unfold zip_extract, zip_open, read_bytes, bind, emit, get_fs, update_fs,
    raise, ret. simpl.
  destruct (fs w !! src) as [[c m|s m]|]; simpl;
    try (intros H; inversion H; subst; exists []; split; [done|by left]).
  destruct (zip_members host c) as [members|]; simpl;
    try (intros H; inversion H; subst; exists []; split; [done|by left]).
  destruct (fs_zip_extract host members exe dest (fs w)); simpl;
    intros H; inversion H; subst; cbn [trace]; eexists;
    (split; [by rewrite <- app_assoc|by right]).
Qed.

Lemma chmod_emits ninja :
  emits (fun e => announce host e = None)
    (st <- path_stat ninja ;; path_chmod ninja (Z.lor (st_mode st) S_IXUSR)).
Proof.
  apply emits_bind.
  - unfold path_stat. apply emits_bind; [by apply emits_emit|].
    intros _. apply emits_bind; [auto with effects|].
    intros f. destruct (f !! ninja); auto with effects.
  - intros st. unfold path_chmod.
    apply emits_bind; [by apply emits_emit|]. auto with effects.
Qed.

Lemma covers_extract :
  covers host (fun _ _ => True) (fun _ _ => True)
    (extract_ninja host false) (extract_ninja host true).
Proof.
  assert (Hgo : forall (archive : ArchiveInfo) exe (chmod : bool),
    covers host (fun _ _ => True) (fun _ _ => True)
      (zip_extract host (joinpath (CACHE_DIR host) (filename archive)) exe
         (ninja_dest host) ;;
       if chmod then
         st <- path_stat (joinpath (ninja_dest host) exe) ;;
         path_chmod (joinpath (ninja_dest host) exe)
           (Z.lor (st_mode st) S_IXUSR)
       else ret tt)
      (ex <- path_exists (ninja_dest host) ;;
       (if ex then print (rmtree_msg host (ninja_dest host)) else ret tt) ;;
       print (extracting_msg host exe
                (joinpath (CACHE_DIR host) (filename archive))
                (ninja_dest host)))).
  { intros archive exe chmod w wd _ r w' rd wd' Hreal Hdry.
    set (src := joinpath (CACHE_DIR host) (filename archive)) in *.
    set (dest := ninja_dest host) in *.
    assert (Hd : exists pre,
      (rd, wd') = (Ok tt, log wd (EvExists dest :: pre
                                   ++ [EvPrint (extracting_msg host exe src dest)]))).
    { rewrite <- Hdry. erewrite bind_ok by apply path_exists_run.
      destruct (bool_decide _).
      - erewrite bind_ok by apply print_run. rewrite print_run, !log_log.
        by exists [EvPrint (rmtree_msg host dest)].
      - erewrite bind_ok by reflexivity. rewrite print_run, !log_log.
        by exists []. }
    destruct Hd as [pre Hd]. inversion Hd; subst rd wd'. clear Hd.
    assert (Hsub : forall evs,
      evs = [] \/ evs = [EvZipExtract src exe dest] ->
      omap (announce host) (EvRead src :: evs)
        `sublist_of` printed (EvExists dest :: pre
                          ++ [EvPrint (extracting_msg host exe src dest)])).
    { intros evs Hevs. cbn [omap list_omap announce printed].
      fold (printed (pre ++ [EvPrint (extracting_msg host exe src dest)])).
      rewrite printed_app. apply sublist_inserts_l.
      destruct Hevs as [->| ->]; [apply sublist_nil_l|done]. }
    unfold bind in Hreal.
    destruct (zip_extract host src exe dest w) as [r1 w1] eqn:E1.
    destruct (zip_extract_events _ _ _ _ _ _ E1) as (evs & T1 & Hevs).
    destruct r1 as [[]|e1].
    - destruct chmod.
      + destruct (chmod_emits _ _ _ _ Hreal) as (evs2 & T2 & F2).
        exists (EvRead src :: evs ++ evs2)%list. eexists.
        split; [by rewrite T2, T1, <- app_assoc|].
        split; [reflexivity|]. split; [|done].
        destruct Hevs as [[_ Hne]|Hevs]; [done|].
        replace (omap (announce host) (EvRead src :: evs ++ evs2))
          with (omap (announce host) (EvRead src :: evs)).
        * apply Hsub. by right.
        * cbn [omap list_omap announce]. rewrite omap_app.
          by rewrite (omap_announce_none _ F2), app_nil_r.
      + inversion Hreal; subst r w'.
        exists (EvRead src :: evs). eexists. split; [done|].
        split; [reflexivity|]. split; [|done].
        apply Hsub. destruct Hevs as [[-> _]| ->]; auto.
    - inversion Hreal; subst r w'.
      exists (EvRead src :: evs). eexists. split; [done|].
      split; [reflexivity|]. split; [|done].
      apply Hsub. destruct Hevs as [[-> _]| ->]; auto. }
  unfold extract_ninja. destruct (is_mac host).
  - apply (Hgo NINJA_MAC "ninja" true).
  - destruct (is_windows host).
    + apply (Hgo NINJA_WIN "ninja.exe" false).
    + apply covers_ret.
Qed.

(** *** The dry run only logs *)

Lemma download_dry_logs_only archive :
  logs_only reads_or_prints (download host archive true).
Proof.
  intros w. destruct (download_dry_run host archive w)
    as (rd & evsd & Hd & F & _). by exists rd, evsd.
Qed.

Lemma print_logs_only msg : logs_only reads_or_prints (print msg).
Proof. apply logs_only_emit. by right. Qed.

Lemma extract_dry_logs_only :
  logs_only reads_or_prints (extract_ninja host true).
Proof.
  assert (Hgo : forall m1 m2,
    logs_only reads_or_prints
      (ex <- path_exists (ninja_dest host) ;;
       (if ex then print m1 else ret tt) ;; print m2)).
  { intros m1 m2. apply logs_only_bind.
    - unfold path_exists. apply logs_only_bind.
      + apply logs_only_emit. by left.
      + intros _. auto with effects.
    - intros ex. apply logs_only_bind.
      + destruct ex; [apply print_logs_only|auto with effects].
      + intros _. apply print_logs_only. }
  unfold extract_ninja. destruct (is_mac host); [apply Hgo|].
  destruct (is_windows host); [apply Hgo|auto with effects].
Qed.

Ltac logs_dry :=
  repeat match goal with
  | |- logs_only _ (bind _ _) => apply logs_only_bind; [|intros _]
  | |- logs_only _ (if ?c then _ else _) => destruct c
  | |- logs_only _ (ret _) => apply logs_only_ret
  | |- logs_only _ (restore_dotnet_tools _ true) => apply print_logs_only
  | |- logs_only _ (update_submodules _ true) => apply print_logs_only
  | |- logs_only _ (extract_ninja _ true) => apply extract_dry_logs_only
  | |- logs_only _ (for_each _ _) => apply logs_only_for_each; intros ?
  | |- logs_only _ (download _ _ true) => apply download_dry_logs_only
  end.

Lemma main_dry_logs_only (no_ninja no_qt no_wix no_subs cache : bool) :
  logs_only reads_or_prints (main host (mkArgs true no_ninja no_qt no_wix no_subs cache)).
Proof. unfold main. cbn [dryrun cache_only nowix nosubmodules]. logs_dry. Qed.

(** *** The cache paths of the registry *)

Lemma archive_path_named (a : ArchiveInfo) :
  filename a <> "" -> filename a <> "." ->
  archive_path host a = (CACHE_DIR host ++ [filename a])%list.
Proof.
  intros H1 H2. unfold archive_path, joinpath.
  rewrite decide_False; [done|]. by intros [|].
Qed.

Lemma named_not_above (p : Path) (seg : string) :
  ~ (p ++ [seg])%list `prefix_of` p.
Proof.
  intros H%prefix_length. rewrite length_app in H. simpl in H. lia.
Qed.

Lemma select_archives_paths (args : Args) :
  NoDup (map (archive_path host) (select_archives host args))
  /\ Forall (fun a => ~ archive_path host a `prefix_of` CACHE_DIR host)
       (select_archives host args).
Proof.
  assert (Hq : archive_path host QT6
               = (CACHE_DIR host ++ [filename QT6])%list)
    by by apply archive_path_named.
  assert (Hm : archive_path host NINJA_MAC
               = (CACHE_DIR host ++ [filename NINJA_MAC])%list)
    by by apply archive_path_named.
  assert (Hw : archive_path host NINJA_WIN
               = (CACHE_DIR host ++ [filename NINJA_WIN])%list)
    by by apply archive_path_named.
  assert (Hqm : archive_path host QT6 <> archive_path host NINJA_MAC).
  { rewrite Hq, Hm. intros H%app_inv_head. vm_compute in H. discriminate. }
  assert (Hqw : archive_path host QT6 <> archive_path host NINJA_WIN).
  { rewrite Hq, Hw. intros H%app_inv_head. vm_compute in H. discriminate. }
  assert (Pq := named_not_above (CACHE_DIR host) (filename QT6)).
  assert (Pm := named_not_above (CACHE_DIR host) (filename NINJA_MAC)).
  assert (Pw := named_not_above (CACHE_DIR host) (filename NINJA_WIN)).
  rewrite <- Hq in Pq. rewrite <- Hm in Pm. rewrite <- Hw in Pw.
  unfold select_archives.
  destruct (negb (noqt args) && (is_windows host || is_mac host)),
    (negb (noninja args)), (is_mac host), (is_windows host);
    cbn [app map]; split;
    repeat first [apply NoDup_nil_2 | apply NoDup_cons_2
                 | apply Forall_nil_2 | apply Forall_cons_2
                 | apply not_elem_of_nil
                 | by rewrite list_elem_of_singleton
                 | done ].
Qed.

(** The whole pipeline, real against dry, from one and the same state. *)
Lemma covers_main (no_ninja no_qt no_wix no_subs cache : bool) :
  covers host (fun w wd => fs w = fs wd) (fun _ _ => True)
    (main host (mkArgs false no_ninja no_qt no_wix no_subs cache))
    (main host (mkArgs true no_ninja no_qt no_wix no_subs cache)).
Proof.
  unfold main. cbn [dryrun cache_only nowix nosubmodules].
  change (select_archives host (mkArgs true no_ninja no_qt no_wix no_subs cache))
    with (select_archives host (mkArgs false no_ninja no_qt no_wix no_subs cache)).
  set (archives := select_archives host (mkArgs false no_ninja no_qt no_wix no_subs cache)).
  destruct (select_archives_paths (mkArgs false no_ninja no_qt no_wix no_subs cache))
    as [Hnd Hpre]. fold archives in Hnd, Hpre.
  eapply covers_bind.
  - eapply covers_weaken; [| |by apply covers_for_each]; [|done].
    intros w wd Hfs q _. by rewrite Hfs.
  - destruct cache; [apply covers_ret|].
    eapply covers_bind.
    { destruct (negb no_wix && is_windows host);
        [apply covers_restore|apply covers_ret]. }
    { eapply covers_bind.
      - destruct (_ || _); [apply covers_extract|apply covers_ret].
      - destruct (negb no_subs); [apply covers_submodules|apply covers_ret].
      - eapply emits_weaken; [|apply logs_only_emits]; [done|]. logs_dry. }
    eapply emits_weaken; [|apply logs_only_emits]; [done|]. logs_dry.
  - eapply emits_weaken; [|apply logs_only_emits]; [done|]. logs_dry.
Qed.

(** C5: with the dry-run flag, for every combination of the other five
    flags and on every platform, [main] leaves the file system and the clock
    as they are and logs nothing but reads of the file system and printed
    messages: no network request, no file-system mutation (unlink, mkdir,
    create, write, extract, chmod), no subprocess.  And it prints, in order,
    one message for each action that the same call without the flag takes
    from the same state - each removal of a stale entry, download, restore,
    extraction and submodule command; a message that announces the removal
    of an existing extraction destination may come on top of these. *)
Theorem dry_run_only_reports (no_ninja no_qt no_wix no_subs cache : bool) (w : World) :
  exists rd wd,
    main host (mkArgs true no_ninja no_qt no_wix no_subs cache) w = (rd, wd) /\
    fs wd = fs w /\
    ticks wd = ticks w /\
    Forall (fun e => is_network e = false /\ is_fs_mutation e = false
                     /\ is_subprocess e = false /\ reads_or_prints e)
      (new_events w wd) /\
    omap (announce host)
      (new_events w (snd (main host (mkArgs false no_ninja no_qt no_wix no_subs cache) w)))
    `sublist_of` printed (new_events w wd).
Proof.
  destruct (main_dry_logs_only no_ninja no_qt no_wix no_subs cache w)
    as (rd & evsd & Hd & F).
  exists rd, (log w evsd). split; [done|]. split; [done|]. split; [done|].
  assert (Hnew : new_events w (log w evsd) = evsd) by by apply new_events_app.
  rewrite Hnew. split.
  - eapply Forall_impl; [exact F|].
    intros e He. split; [|split; [|split; [|done]]];
      destruct He as [He|He]; by destruct e.
  - destruct (main host (mkArgs false no_ninja no_qt no_wix no_subs cache) w)
      as [r w'] eqn:E.
    destruct (covers_main no_ninja no_qt no_wix no_subs cache w w eq_refl _ _ _ _ E Hd)
      as (evs & evsd' & T & Td & Hs & _).
    cbn [snd]. rewrite (new_events_app _ _ _ T).
    cbn [log trace] in Td. apply app_inv_head in Td. by subst evsd'.
Qed.

End Pipeline.

(** ** URLs and file names *)

Lemma split_slash_nonempty s : split_slash s <> [].
Proof.
  destruct s as [|c s]; simpl; [done|].
  destruct (Ascii.eqb c "/"); [done|]. by destruct (split_slash s).
Qed.

Lemma concat_cons_nonempty sep x l :
  l <> [] -> String.concat sep (x :: l) = x +:+ sep +:+ String.concat sep l.
Proof. by destruct l. Qed.

(** X1: [split('/')] loses nothing: joining the pieces with slashes gives
    the string back, and no piece holds a slash. *)
Theorem split_slash_join (s : string) :
  String.concat "/" (split_slash s) = s
  /\ Forall (fun piece => has_slash piece = false) (split_slash s).
Proof.
  induction s as [|c s [IHj IHf]]; [by repeat constructor|].
  cbn [split_slash]. destruct (Ascii.eqb c "/") eqn:Hc.
  - apply Ascii.eqb_eq in Hc. subst c. split.
    + rewrite concat_cons_nonempty by apply split_slash_nonempty.
      by rewrite IHj.
    + by constructor.
  - pose proof (split_slash_nonempty s) as Hne.
    destruct (split_slash s) as [|piece pieces]; [done|]. split.
    + rewrite <- IHj. by destruct pieces.
    + apply Forall_cons in IHf as [Hp Hps]. constructor; [|done].
      simpl. by rewrite Hc.
Qed.

Lemma append_assoc_s (a b c : string) : (a +:+ b) +:+ c = a +:+ b +:+ c.
Proof.
  induction a as [|x a IH]; [done|].
  change (String x ((a +:+ b) +:+ c) = String x (a +:+ b +:+ c)).
  by f_equal.
Qed.

Lemma append_empty_r_s (a : string) : a +:+ "" = a.
Proof.
  induction a as [|x a IH]; [done|].
  change (String x (a +:+ "") = String x a). by f_equal.
Qed.

Lemma concat_last sep d l :
  l <> [] ->
  exists pre, String.concat sep l = pre +:+ List.last l d
              /\ (pre = "" \/ exists pre', pre = pre' +:+ sep).
Proof.
  induction l as [|x l IH]; [done|]. intros _.
  destruct l as [|y l].
  - exists "". split; [done|by left].
  - destruct IH as (pre & Hc & Hpre); [done|].
    exists (x +:+ sep +:+ pre). split.
    + rewrite concat_cons_nonempty by done. rewrite Hc.
      change (List.last (x :: y :: l) d) with (List.last (y :: l) d).
      by rewrite !append_assoc_s.
    + right. destruct Hpre as [->|[pre' ->]].
      * exists x. by rewrite append_empty_r_s.
      * exists (x +:+ sep +:+ pre'). by rewrite !append_assoc_s.
Qed.

(** X2: the file name of an archive is the tail of its URL after the last
    slash: it holds no slash, and what precedes it in the URL is empty or
    ends with a slash. *)
Theorem filename_is_url_tail (a : ArchiveInfo) :
  has_slash (filename a) = false
  /\ exists pre, url a = pre +:+ filename a
                 /\ (pre = "" \/ exists pre', pre = pre' +:+ "/").
Proof.
  unfold filename. destruct (split_slash_join (url a)) as [Hj Hf]. split.
  - rewrite List.Forall_forall in Hf. apply Hf.
    pose proof (split_slash_nonempty (url a)) as Hne.
    destruct (List.exists_last Hne) as (l' & y & ->).
    rewrite List.last_last. apply in_or_app. right. by left.
  - destruct (concat_last "/" "" (split_slash (url a))
                (split_slash_nonempty _)) as (pre & Hc & Hpre).
    exists pre. split; [by rewrite <- Hc|done].
Qed.

(** ** More on [download] *)

Section DownloadMore.

Variable host : Host.
Variable archive : ArchiveInfo.

Local Abbreviation path := (archive_path host archive).

Lemma fetch_ok_cached w w' :
  fetch host archive path false w = (Ok tt, w') -> cached host archive (fs w').
Proof.
  intros H. apply fetch_real_outcome in H.
  inversion H as [| | |f1 resp m0 out n r' Hmk Hreq Hop Fo Hr]; subst.
  destruct (broken resp); [done|].
  specialize (Hr w). apply (f_equal fst) in Hr.
  apply verify_ok_inv in Hr as [Hsz Hsh].
  exists (concat (iter_content resp)), m0. cbn [fs].
  by rewrite lookup_insert_eq.
Qed.

Lemma download_ok_cached w w' :
  download host archive false w = (Ok tt, w') -> cached host archive (fs w').
Proof.
  destruct (fs w !! path) as [[c m|s m]|] eqn:Hf.
  - destruct (decide (stale host archive c)) as [Hst|Hok].
    + rewrite (download_stale _ _ _ _ _ _ Hf Hst). apply fetch_ok_cached.
    + unfold stale in Hok.
      assert (Hs : Z.of_nat (length c) = size archive)
        by (destruct (decide (Z.of_nat (length c) = size archive)); tauto).
      assert (Hh : sha256_hexdigest host c = sha256 archive)
        by (destruct (decide (sha256_hexdigest host c = sha256 archive));
            tauto).
      destruct (download_cache_hit_run host archive false w c m Hf Hs Hh)
        as (w1 & -> & ->).
      intros H; inversion H; subst. by exists c, m.
  - rewrite (download_directory_run _ _ _ _ _ _ Hf).
    by destruct (s =? size archive)%Z.
  - rewrite (download_absent _ _ _ _ Hf). apply fetch_ok_cached.
Qed.

(** X3: the integrity gate.  A real [download] returns normally only with a
    verified archive in the cache: whether the call hit the cache or fetched,
    afterwards the cache entry is a file of the expected size whose SHA-256
    is the expected one. *)
Theorem download_accepts_only_verified (w w' : World) :
  download host archive false w = (Ok tt, w') ->
  exists content mode,
    fs w' !! archive_path host archive = Some (File content mode)
    /\ Z.of_nat (length content) = size archive
    /\ sha256_hexdigest host content = sha256 archive.
Proof. apply download_ok_cached. Qed.

(** X4: [download] is idempotent.  After a real [download] returned
    normally, another call - real or dry - is a cache hit: it returns
    normally, logs the three reads of the cache check and nothing else (no
    network request), and leaves file system and clock as they are. *)
Theorem download_twice_is_cache_hit (w w1 : World) (dryrun : bool) :
  download host archive false w = (Ok tt, w1) ->
  download host archive dryrun w1
  = (Ok tt, log w1 [EvExists (archive_path host archive);
                    EvStat (archive_path host archive);
                    EvRead (archive_path host archive)]).
Proof.
  intros H. apply download_ok_cached in H as (c & m & Hf & Hs & Hh).
  by destruct (download_cache_hit_run host archive dryrun w1 c m Hf Hs Hh)
    as (w2 & -> & ->).
Qed.

Lemma fetch_real_preserves w r w' q n :
  fetch host archive path false w = (r, w') ->
  q <> path -> fs w !! q = Some n -> fs w' !! q = Some n.
Proof.
  intros H Hne Hq. apply fetch_real_outcome in H.
  inversion H as [e Hmk|f1 Hmk Hreq|f1 resp e out n0 Hmk Hreq Hop Fo
                 |f1 resp m0 out n0 r' Hmk Hreq Hop Fo Hr]; subst;
    cbn [log fs]; rewrite ?lookup_insert_ne by done;
    eauto using mkdir_parents_preserves.
Qed.

Lemma download_preserves dryrun w r w' q n :
  download host archive dryrun w = (r, w') ->
  q <> path -> fs w !! q = Some n -> fs w' !! q = Some n.
Proof.
  intros H Hne Hq. destruct dryrun.
  - destruct (download_dry_run host archive w) as (rd & evsd & Hd & _).
    rewrite H in Hd. by inversion Hd; subst.
  - destruct (fs w !! path) as [[c m|s m]|] eqn:Hf.
    + destruct (decide (stale host archive c)) as [Hst|Hok].
      * rewrite (download_stale _ _ _ _ _ _ Hf Hst) in H.
        eapply fetch_real_preserves; [exact H|done|]. cbn [fs].
        by rewrite lookup_delete_ne.
      * unfold stale in Hok.
        assert (Hs : Z.of_nat (length c) = size archive)
          by (destruct (decide (Z.of_nat (length c) = size archive)); tauto).
        assert (Hh : sha256_hexdigest host c = sha256 archive)
          by (destruct (decide (sha256_hexdigest host c = sha256 archive));
              tauto).
        destruct (download_cache_hit_run host archive false w c m Hf Hs Hh)
          as (w1 & Hr & ->).
        rewrite H in Hr. by inversion Hr; subst.
    + rewrite (download_directory_run _ _ _ _ _ _ Hf) in H.
      destruct (s =? size archive)%Z; by inversion H; subst.
    + rewrite (download_absent _ _ _ _ Hf) in H.
      by eapply fetch_real_preserves.
Qed.

(** X5: [download] keeps its hands off the rest of the file system.
    Whatever the flag and however the call ends, every entry other than the
    cache entry of the archive is still there, unchanged; and a path that is
    neither that entry nor the cache directory or one of its ancestors holds
    afterwards exactly what it held before. *)
Theorem download_touches_cache_only (dryrun : bool) (w : World) :
  (forall q n,
     q <> archive_path host archive ->
     fs w !! q = Some n ->
     fs (snd (download host archive dryrun w)) !! q = Some n)
  /\ (forall q,
        q <> archive_path host archive ->
        ~ q `prefix_of` CACHE_DIR host ->
        fs (snd (download host archive dryrun w)) !! q = fs w !! q).
Proof.
  destruct (download host archive dryrun w) as [r w'] eqn:E. cbn [snd].
  split.
  - intros q n Hne Hq. by eapply download_preserves.
  - intros q Hne Hpre. destruct dryrun.
    + destruct (download_dry_run host archive w) as (rd & evsd & Hd & _).
      rewrite E in Hd. by inversion Hd; subst.
    + destruct (download_real_cover _ _ _ _ _ E) as (evs & _ & _ & Hfr & _).
      by apply Hfr.
Qed.

(** X6: a request that fails costs the stale entry.  With the cache
    directory in place and a stale file in the cache, a real [download]
    whose HTTP request raises ends with that exception after it has deleted
    the stale file: the cache entry is gone, nothing else has changed. *)
Theorem download_request_fails (w : World) (content : list byte) (mode : Z) :
  is_dir (fs w) (CACHE_DIR host) = true ->
  fs w !! archive_path host archive = Some (File content mode) ->
  stale host archive content ->
  requests_get host (url archive) = None ->
  download host archive false w
  = (Raise (RequestException (url archive)),
     mkWorld (delete (archive_path host archive) (fs w))
       (trace w
        ++ cache_check archive (archive_path host archive) (File content mode)
        ++ [EvUnlink (archive_path host archive);
            EvMkdir (CACHE_DIR host); EvHttpGet (url archive)])%list
       (ticks w)).
Proof.
  intros Hd Hf Hst Hreq. rewrite (download_stale _ _ _ _ _ _ Hf Hst).
  unfold fetch. erewrite bind_ok.
  2:{ rewrite path_mkdir_run, mkdir_parents_is_dir; [reflexivity|].
      cbn [fs]. by eapply is_dir_delete_file. }
  cbn [fs trace ticks].
  erewrite bind_raise by by apply stream_no_response.
  unfold log. cbn [fs trace ticks]. by rewrite <- !app_assoc.
Qed.

(** X7: a connection that breaks in the middle of the body.  With the cache
    directory in place and no valid entry, a real [download] whose stream
    fails after some chunks ends with the request exception - no integrity
    error is raised - and leaves in the cache a file with exactly the bytes
    received so far. *)
Theorem download_connection_breaks (w : World) (resp : Response) :
  is_dir (fs w) (CACHE_DIR host) = true ->
  (fs w !! archive_path host archive = None
   \/ exists content mode,
        fs w !! archive_path host archive = Some (File content mode)
        /\ stale host archive content) ->
  requests_get host (url archive) = Some resp ->
  broken resp = true ->
  exists w',
    download host archive false w
    = (Raise (RequestException (url archive)), w')
    /\ fs w' !! archive_path host archive
       = Some (File (concat (iter_content resp)) (new_file_mode host)).
Proof.
  intros Hd Hcache Hreq Hbr.
  assert (Hgo : forall w1,
    is_dir (fs w1) (CACHE_DIR host) = true -> fs w1 !! path = None ->
    exists w',
      fetch host archive path false w1
      = (Raise (RequestException (url archive)), w')
      /\ fs w' !! path
         = Some (File (concat (iter_content resp)) (new_file_mode host))).
  { intros w1 Hd1 Hn1.
    destruct (fetch_streams host archive path w1 resp Hd1 Hn1
                (archive_path_parent _ _ _ Hd1 Hn1) Hreq)
      as (r & out & n & Hrun & _ & Hr).
    rewrite Hbr in Hr. subst r. eexists. split; [exact Hrun|].
    cbn [fs]. apply lookup_insert_eq. }
  destruct Hcache as [Hn|(content & mode & Hf & Hst)].
  - rewrite (download_absent _ _ _ _ Hn). by apply Hgo.
  - rewrite (download_stale _ _ _ _ _ _ Hf Hst). apply Hgo; cbn [fs].
    + by eapply is_dir_delete_file.
    + apply lookup_delete_eq.
Qed.

End DownloadMore.

(** ** The progress printer *)

Lemma steady_ret {A} P (a : A) : steady P (ret a).
Proof.
  intros w r w' H. inversion H; subst. split; [done|].
  exists []. by rewrite app_nil_r.
Qed.

Lemma steady_raise {A} P e : steady P (@raise A e).
Proof.
  intros w r w' H. inversion H; subst. split; [done|].
  exists []. by rewrite app_nil_r.
Qed.

Lemma steady_emit (P : Event -> Prop) e : P e -> steady P (emit e).
Proof.
  intros HP w r w' H. inversion H; subst. split; [done|].
  exists [e]. split; [done|]. by constructor.
Qed.

Lemma steady_get_fs P : steady P get_fs.
Proof.
  intros w r w' H. inversion H; subst. split; [done|].
  exists []. by rewrite app_nil_r.
Qed.

Lemma steady_update_fs P op : steady P (update_fs op).
Proof.
  intros w r w' H. unfold update_fs in H.
  destruct (op (fs w)); inversion H; subst; (split; [done|]);
    exists []; cbn [trace]; by rewrite app_nil_r.
Qed.

Lemma steady_put_fs P f : steady P (put_fs f).
Proof.
  intros w r w' H. inversion H; subst. split; [done|].
  exists []. cbn [trace]. by rewrite app_nil_r.
Qed.

Lemma steady_bind {A B} P (m : M A) (k : A -> M B) :
  steady P m -> (forall a, steady P (k a)) -> steady P (bind m k).
Proof.
  intros Hm Hk w r w' H. unfold bind in H.
  destruct (m w) as [[a|e] w1] eqn:E.
  - destruct (Hm _ _ _ E) as (T1 & evs1 & L1 & F1).
    destruct (Hk a _ _ _ H) as (T2 & evs2 & L2 & F2).
    split; [congruence|]. exists (evs1 ++ evs2)%list.
    split; [by rewrite L2, L1, app_assoc|by apply Forall_app].
  - inversion H; subst. eauto.
Qed.

Lemma steady_bind_ret {A B} P (a : A) (k : A -> M B) :
  steady P (k a) -> steady P (bind (ret a) k).
Proof. intros H w r w' E. by apply (H w r w'). Qed.

Lemma steady_with_exit_ret {A} P (body : M A) :
  steady P body -> steady P (with_exit body (ret tt)).
Proof.
  intros Hb w r w' H. unfold with_exit, ret in H.
  destruct (body w) as [rb w1] eqn:E. inversion H; subst. eauto.
Qed.

Ltac steady_step :=
  first
    [ apply steady_ret | apply steady_raise | apply steady_get_fs
    | apply steady_put_fs | apply steady_update_fs
    | apply steady_emit; by intros ?
    | apply steady_bind; [|intros ?] ].

Ltac steady_cases :=
  repeat first
    [ steady_step
    | match goal with
      | |- steady _ (if ?c then _ else _) => destruct c
      | |- steady _ (match ?x with _ => _ end) => destruct x
      end ].

Section Progress.

Variable host : Host.

Lemma steady_write_chunks archive path chunks brk : forall saved hasher,
  steady not_stdout
    (write_chunks host archive path chunks brk saved hasher NoOpImpl).
Proof.
  induction chunks as [|chunk rest IH]; intros saved hasher;
    cbn [write_chunks].
  - steady_cases.
  - apply steady_bind; [unfold file_write; steady_cases|]. intros _.
    cbn [print_line]. apply steady_bind_ret. apply IH.
Qed.

Lemma steady_download_no_tty archive dryrun :
  stdout_isatty host = false ->
  steady not_stdout (download host archive dryrun).
Proof.
  intros Htty.
  assert (Hfetch : forall path,
    steady not_stdout (fetch host archive path dryrun)).
  { intros path. unfold fetch. destruct dryrun; [unfold print; steady_cases|].
    apply steady_bind; [unfold path_mkdir; steady_cases|]. intros _.
    apply steady_bind; [|intros ?; unfold verify; steady_cases].
    unfold stream, ProgressPrinter_enter. rewrite Htty.
    apply steady_bind; [steady_cases|]. intros _.
    destruct (requests_get host (url archive)) as [resp|]; [|steady_cases].
    apply steady_bind_ret. cbn [ProgressPrinter_exit].
    apply steady_with_exit_ret.
    apply steady_bind; [unfold open_wb; steady_cases|]. intros _.
    apply steady_write_chunks. }
  unfold download, path_exists, path_stat, get_sha256, read_bytes,
    path_unlink, print.
  apply steady_bind; [steady_cases|]. intros [|]; [|apply Hfetch].
  apply steady_bind; [steady_cases|]. intros st.
  apply steady_bind; [steady_cases|]. intros [|]; [steady_cases|].
  apply steady_bind; [steady_cases|]. intros _. apply Hfetch.
Qed.

(** X8: without a terminal there is no progress output.  When stdout is not
    a tty, a [download] - real or dry, however it ends - writes nothing to
    stdout and never reads the clock. *)
Theorem download_silent_without_tty (archive : ArchiveInfo) (dryrun : bool)
    (w : World) :
  stdout_isatty host = false ->
  ticks (snd (download host archive dryrun w)) = ticks w
  /\ Forall not_stdout (new_events w (snd (download host archive dryrun w))).
Proof.
  intros Htty. destruct (download host archive dryrun w) as [r w'] eqn:E.
  destruct (steady_download_no_tty archive dryrun Htty _ _ _ E)
    as (Ht & evs & L & F).
  cbn [snd]. split; [done|]. by rewrite (new_events_app _ _ _ L).
Qed.

Lemma length_spaces n : String.length (spaces n) = n.
Proof. induction n as [|n IH]; simpl; [done|]. by rewrite IH. Qed.

Lemma length_append_s (a b : string) :
  String.length (a +:+ b) = (String.length a + String.length b)%nat.
Proof.
  induction a as [|x a IH]; [done|].
  change (S (String.length (a +:+ b))
          = S (String.length a + String.length b)). by rewrite IH.
Qed.

Lemma length_substring0 n : forall s,
  (n <= String.length s)%nat -> String.length (substring 0 n s) = n.
Proof.
  induction n as [|n IH]; intros [|c s] H; simpl in *; try done; try lia.
  rewrite IH; [done|lia].
Qed.

Lemma substring0_append n : forall a b,
  (n <= String.length a)%nat -> substring 0 n (a +:+ b) = substring 0 n a.
Proof.
  induction n as [|n IH]; intros [|c a] b H; simpl in *; try lia.
  - by destruct b.
  - done.
  - change (String c (substring 0 n (a +:+ b)) = String c (substring 0 n a)).
    rewrite IH; [done|lia].
Qed.

Lemma substring0_all s : substring 0 (String.length s) s = s.
Proof. induction s as [|c s IH]; simpl; [done|]. by rewrite IH. Qed.

(** X9: the progress line is rate-limited and fits the terminal.  A call of
    [print_line] less than 25 ms (of clock reading) after the last output
    writes nothing and keeps the time of the last output; otherwise it
    writes one line, which is the message padded with spaces or cut to
    exactly the width of the terminal, followed by a carriage return, and
    remembers the new time. *)
Theorem print_line_fits_terminal (last : Z) (msg : string) (w : World) :
  (time_ns host (ticks w) - last < 25000000 ->
   print_line host (Impl last) msg w
   = (Ok (Impl last), mkWorld (fs w) (trace w) (S (ticks w))))
  /\ (25000000 <= time_ns host (ticks w) - last ->
      exists text,
        print_line host (Impl last) msg w
        = (Ok (Impl (time_ns host (ticks w))),
           mkWorld (fs w) (trace w ++ [EvStdout (text +:+ CR)])%list
             (S (ticks w)))
        /\ String.length text = terminal_columns host
        /\ ((String.length msg <= terminal_columns host)%nat ->
            text = msg +:+ spaces (terminal_columns host - String.length msg))
        /\ ((terminal_columns host <= String.length msg)%nat ->
            text = substring 0 (terminal_columns host) msg)).
Proof.
  unfold print_line, bind, read_clock, stdout_write, emit, ret.
  cbn [fs trace ticks]. split.
  - intros H. apply Z.ltb_lt in H. by rewrite H.
  - intros H. apply Z.ltb_ge in H. rewrite H.
    set (cols := terminal_columns host).
    exists (substring 0 cols (msg +:+ spaces (cols - String.length msg))).
    split; [done|]. split; [|split].
    + apply length_substring0. rewrite length_append_s, length_spaces. lia.
    + intros Hle.
      replace cols
        with (String.length (msg +:+ spaces (cols - String.length msg)))
        at 1 by (rewrite length_append_s, length_spaces; lia).
      apply substring0_all.
    + intros Hge. replace (cols - String.length msg)%nat with 0%nat by lia.
      cbn [spaces]. by rewrite append_empty_r_s.
Qed.

Lemma emits_write_chunks archive path chunks brk : forall saved hasher pr,
  emits (fun _ => True)
    (write_chunks host archive path chunks brk saved hasher pr).
Proof.
  induction chunks as [|chunk rest IH]; intros saved hasher pr;
    cbn [write_chunks].
  - destruct brk; auto with effects.
  - apply emits_bind.
    { unfold file_write. apply emits_bind; [by apply emits_emit|].
      auto with effects. }
    intros _. apply emits_bind; [|intros pr'; apply IH].
    intros w r w' H.
    destruct (print_line_run host pr
                (filename archive +:+ ": " +:+
                 pretty (saved + Z.of_nat (length chunk)) +:+ "/" +:+
                 pretty (size archive)) w) as (pr' & evs & n & Hp & _).
    rewrite H in Hp. inversion Hp; subst. exists evs. cbn [trace].
    split; [done|]. by apply Forall_true.
Qed.

Lemma with_exit_stdout {A} (body : M A) text w :
  emits (fun _ => True) body ->
  exists evs,
    trace (snd (with_exit body (stdout_write text) w))
    = (trace w ++ evs ++ [EvStdout text])%list.
Proof.
  intros Hem. unfold with_exit.
  destruct (body w) as [rb w2] eqn:E.
  destruct (Hem _ _ _ E) as (evs & L & _).
  exists evs. cbn [stdout_write emit snd trace]. by rewrite L, <- app_assoc.
Qed.

(** X10: the progress line is always cleared.  On a terminal, once the HTTP
    request has returned a response, the last thing the streaming block
    writes - whether the target could be opened or not, whether the stream
    ran to its end or broke - is the line of spaces that clears the
    progress display. *)
Theorem stream_clears_progress_line (archive : ArchiveInfo) (path : Path)
    (w : World) (resp : Response) :
  stdout_isatty host = true ->
  requests_get host (url archive) = Some resp ->
  exists pre,
    new_events w (snd (stream host archive path w))
    = (pre ++ [EvStdout (spaces (terminal_columns host) +:+ CR)])%list.
Proof.
  intros Htty Hreq. unfold stream, ProgressPrinter_enter.
  rewrite Htty, Hreq.
  erewrite bind_ok by reflexivity. erewrite bind_ok by reflexivity.
  cbn [ProgressPrinter_exit].
  edestruct (with_exit_stdout (A := Z * list byte)) as (evs & L);
    [|rewrite (new_events_app _ _ (EvHttpGet (url archive) :: evs
               ++ [EvStdout (spaces (terminal_columns host) +:+ CR)]));
      [by exists (EvHttpGet (url archive) :: evs)|
       rewrite L; cbn [trace]; by rewrite <- !app_assoc]].
  apply emits_bind.
  - unfold open_wb. apply emits_bind; [by apply emits_emit|].
    auto with effects.
  - intros _. apply emits_write_chunks.
Qed.

End Progress.

(** ** More on the pipeline *)

Section PipelineMore.

Variable host : Host.

(** X11: on a platform that is neither Windows nor macOS the pipeline is the
    submodule sync and nothing else: no archive is selected, nothing is
    downloaded, restored or extracted, whatever the flags. *)
Theorem main_other_platform (args : Args) (w : World) :
  is_windows host = false ->
  is_mac host = false ->
  select_archives host args = []
  /\ main host args w
     = (if cache_only args || nosubmodules args then ret tt
        else update_submodules host (dryrun args)) w.
Proof.
  intros Hw Hm. destruct args as [d nn nq nw ns co].
  unfold main, select_archives.
  cbn [dryrun noninja noqt nowix nosubmodules cache_only].
  rewrite Hw, Hm. by destruct nn, nq, nw, ns, co.
Qed.

(** X12: what decides the extraction step.  The test of [main] on the
    selected archives holds exactly when the ninja archive was not switched
    off and the platform is macOS or Windows - the Qt archive plays no part
    in it - and the selection never holds both ninja archives. *)
Theorem extraction_guard (args : Args) :
  (list_contains (select_archives host args) NINJA_WIN
   || list_contains (select_archives host args) NINJA_MAC)
  = negb (noninja args) && (is_mac host || is_windows host)
  /\ ~ (In NINJA_MAC (select_archives host args)
        /\ In NINJA_WIN (select_archives host args)).
Proof.
  unfold select_archives.
  destruct (noqt args), (noninja args), (is_mac host), (is_windows host);
    (split; [reflexivity|]); cbn; intros [H1 H2];
    repeat match goal with
    | H : _ \/ _ |- _ => destruct H
    | H : False |- _ => destruct H
    | H : _ = _ |- _ => discriminate H
    end.
Qed.

Lemma for_each_download_preserves dryrun l : forall w r w' q n,
  (forall b, In b l -> q <> archive_path host b) ->
  for_each (fun a => download host a dryrun) l w = (r, w') ->
  fs w !! q = Some n -> fs w' !! q = Some n.
Proof.
  induction l as [|a l IH]; intros w r w' q n Hne H Hq.
  { by inversion H; subst. }
  cbn [for_each] in H. unfold bind in H.
  destruct (download host a dryrun w) as [[[]|e] w1] eqn:E.
  - eapply IH; [|exact H|].
    + intros b Hb. apply Hne. by right.
    + eapply download_preserves; [exact E| |done]. apply Hne. by left.
  - inversion H; subst.
    eapply download_preserves; [exact E| |done]. apply Hne. by left.
Qed.

(** After the download loop returned normally every archive is cached. *)
Lemma loop_ok_all_cached l : forall w w',
  NoDup (map (archive_path host) l) ->
  for_each (fun a => download host a false) l w = (Ok tt, w') ->
  forall a, In a l -> cached host a (fs w').
Proof.
  induction l as [|a l IH]; intros w w' Hnd H b Hb; [done|].
  cbn [for_each] in H. unfold bind in H.
  destruct (download host a false w) as [[[]|e] w1] eqn:E; [|done].
  cbn [map] in Hnd. apply NoDup_cons in Hnd as [Hni Hnd].
  destruct Hb as [->|Hb]; [|by eapply IH].
  apply download_ok_cached in E as (c & m & Hf & Hs & Hh).
  exists c, m. split; [|done].
  eapply for_each_download_preserves; [|exact H|exact Hf].
  intros a Ha Heq. apply Hni. rewrite Heq.
  apply list_elem_of_In, in_map, Ha.
Qed.

(** With every archive cached, the download loop only reads. *)
Lemma loop_all_hits dryrun l : forall w,
  (forall a, In a l -> cached host a (fs w)) ->
  exists evs,
    for_each (fun a => download host a dryrun) l w = (Ok tt, log w evs)
    /\ Forall (fun e => is_observation e = true) evs.
Proof.
  induction l as [|a l IH]; intros w Hc.
  - exists []. by rewrite log_nil.
  - destruct (Hc a) as (c & m & Hf & Hs & Hh); [by left|].
    destruct (download_cache_hit_run host a dryrun w c m Hf Hs Hh)
      as (w1 & Hrun & ->).
    destruct (IH (log w [EvExists (archive_path host a);
                         EvStat (archive_path host a);
                         EvRead (archive_path host a)])) as (evs & Hl & F).
    { intros b Hb. apply Hc. by right. }
    eexists. cbn [for_each]. erewrite bind_ok by exact Hrun.
    rewrite Hl, log_log. split; [reflexivity|].
    by repeat (constructor; [done|]).
Qed.

(** X13: no provisioning on unverified archives.  Whenever a real run of
    [main] gets to any operation of the restore, the extraction or the
    submodule sync, the download loop before it returned normally, and at
    that point every selected archive was in the cache with the expected
    size and SHA-256. *)
Theorem provisioning_needs_verified_archives
    (no_ninja no_qt no_wix no_subs cache : bool) (w w' : World)
    (r : Res unit) (e : Event) :
  main host (mkArgs false no_ninja no_qt no_wix no_subs cache) w = (r, w') ->
  In e (new_events w w') ->
  is_provisioning e = true ->
  exists w1,
    for_each (fun a => download host a false)
      (select_archives host (mkArgs false no_ninja no_qt no_wix no_subs cache))
      w = (Ok tt, w1)
    /\ forall a,
         In a (select_archives host
                 (mkArgs false no_ninja no_qt no_wix no_subs cache)) ->
         cached host a (fs w1).
Proof.
  intros H Hin He. unfold main in H. cbn [dryrun] in H.
  set (l := select_archives host _) in *.
  unfold bind at 1 in H.
  destruct (for_each (fun a => download host a false) l w)
    as [[[]|e1] w1] eqn:E.
  - exists w1. split; [done|].
    eapply loop_ok_all_cached; [|exact E].
    apply select_archives_paths.
  - inversion H; subst r w'. exfalso.
    assert (Hem : emits
      (fun e => is_download_event e = true
                /\ forall m, e = EvPrint m -> download_message host m)
      (for_each (fun a => download host a false) l)).
    { apply emits_for_each. intros a _. apply download_emits. }
    destruct (Hem _ _ _ E) as (evs & L & F).
    rewrite (new_events_app _ _ _ L) in Hin.
    rewrite List.Forall_forall in F. destruct (F _ Hin) as [Hd _].
    by destruct e.
Qed.

(** X14: a second cache-only run finds everything in place.  After a real
    run of [main] with the cache-only flag returned normally, another such
    run - real or dry - returns normally as well, reads the cache entries and
    does nothing else: no network request, no change to the file system or
    the clock. *)
Theorem cache_only_second_run
    (dry no_ninja no_qt no_wix no_subs : bool) (w w1 : World) :
  main host (mkArgs false no_ninja no_qt no_wix no_subs true) w
    = (Ok tt, w1) ->
  exists evs,
    main host (mkArgs dry no_ninja no_qt no_wix no_subs true) w1
      = (Ok tt, log w1 evs)
    /\ Forall (fun e => is_observation e = true) evs.
Proof.
  intros H. unfold main in *.
  cbn [dryrun cache_only] in *. rewrite bind_ret_tt in *.
  change (select_archives host (mkArgs dry no_ninja no_qt no_wix no_subs true))
    with (select_archives host
            (mkArgs false no_ninja no_qt no_wix no_subs true)).
  apply loop_all_hits. eapply loop_ok_all_cached; [|exact H].
  apply select_archives_paths.
Qed.

Lemma fs_zip_extract_target members member dest f f' :
  fs_zip_extract host members member dest f = inr f' ->
  exists data m0,
    zip_find member members = Some data
    /\ f' !! joinpath dest member = Some (File data m0).
Proof.
  unfold fs_zip_extract. intros H.
  destruct (zip_find member members) as [data|]; [|done].
  destruct (match f !! dest with Some _ => _ | None => _ end) as [|f1];
    [done|].
  destruct (fs_open_wb _ _ f1) as [|f2] eqn:E2; [done|].
  apply fs_open_wb_ok in E2 as [m0 ->].
  unfold fs_write in H. rewrite lookup_insert_eq in H.
  inversion H; subst. exists data, m0. by rewrite lookup_insert_eq.
Qed.

(** X15: on macOS the extracted tool is made executable.  When a real
    [extract_ninja] returns normally there, the cached ninja-mac.zip was a
    readable archive with a member ninja, the destination holds a file
    ninja with exactly the bytes of that member, and the owner-execute bit
    of its mode is set. *)
Theorem extract_ninja_mac_executable (w w' : World) :
  is_mac host = true ->
  extract_ninja host false w = (Ok tt, w') ->
  exists content md members data m,
    fs w !! archive_path host NINJA_MAC = Some (File content md)
    /\ zip_members host content = Some members
    /\ zip_find "ninja" members = Some data
    /\ fs w' !! joinpath (ninja_dest host) "ninja" = Some (File data m)
    /\ Z.testbit m 6 = true.
Proof.
  intros Hm. unfold extract_ninja. rewrite Hm.
  unfold zip_extract, zip_open, read_bytes, path_stat, path_chmod, bind,
    emit, get_fs, update_fs, raise, ret. cbn [fs trace ticks].
  change (joinpath (CACHE_DIR host) (filename NINJA_MAC))
    with (archive_path host NINJA_MAC).
  destruct (fs w !! archive_path host NINJA_MAC) as [[c md|s md]|]; try done.
  destruct (zip_members host c) as [members|] eqn:Hz; [|done].
  cbn [fs trace ticks].
  destruct (fs_zip_extract host members "ninja" (ninja_dest host) (fs w))
    as [|f1] eqn:Ez; [done|].
  cbn [fs trace ticks].
  destruct (fs_zip_extract_target _ _ _ _ _ Ez) as (data & m0 & Hfind & Ht).
  rewrite Ht. cbn [fs trace ticks st_mode]. rewrite Ht.
  intros H. inversion H; subst. cbn [fs].
  exists c, md, members, data, (Z.lor m0 S_IXUSR).
  rewrite lookup_insert_eq. repeat split; auto.
  rewrite Z.lor_spec. apply orb_true_r.
Qed.

(** X17: a failing restore stops the pipeline.  On Windows, when the
    downloads were fine and dotnet tool restore exits with a non-zero code,
    a real [main] raises ChildProcessError naming the command; what the
    process did to the file system stays, and neither the extraction nor the
    submodule sync is started - the restore is the last operation logged. *)
Theorem restore_failure_stops_main
    (no_ninja no_qt no_subs : bool) (w w1 : World)
    (f' : gmap Path Node) (code : Z) :
  is_windows host = true ->
  for_each (fun a => download host a false)
    (select_archives host (mkArgs false no_ninja no_qt false no_subs false)) w
    = (Ok tt, w1) ->
  popen_run host dotnet_args (ABS_MOZC_SRC_DIR host) (fs w1)
    = Some (f', code) ->
  code <> 0 ->
  main host (mkArgs false no_ninja no_qt false no_subs false) w
  = (Raise (ChildProcessError
              "Failed to execute ['dotnet', 'tool', 'restore']"),
     mkWorld f'
       (trace w1 ++ [EvPopen dotnet_args (ABS_MOZC_SRC_DIR host)])%list
       (ticks w1)).
Proof.
  intros Hw Hloop Hp Hc. unfold main.
  cbn [dryrun cache_only nowix nosubmodules].
  erewrite bind_ok by exact Hloop. rewrite Hw. cbn [negb andb].
  erewrite bind_raise; [reflexivity|].
  unfold restore_dotnet_tools, exec_command, bind, emit, get_fs, put_fs,
    raise, ret. cbn [fs trace ticks]. rewrite Hp.
  apply Z.eqb_neq in Hc. by rewrite Hc.
Qed.

(** What [extract_ninja] logs when it changes a mode. *)
Lemma extract_ninja_emits dryrun :
  emits (fun e => forall p m, e = EvChmod p m ->
                    is_mac host = true /\ dryrun = false
                    /\ p = joinpath (ninja_dest host) "ninja"
                    /\ Z.testbit m 6 = true)
    (extract_ninja host dryrun).
Proof.
  assert (Hzip : forall src exe,
    emits (fun e => forall p m, e = EvChmod p m ->
                      is_mac host = true /\ dryrun = false
                      /\ p = joinpath (ninja_dest host) "ninja"
                      /\ Z.testbit m 6 = true)
      (zip_extract host src exe (ninja_dest host))).
  { intros src exe. unfold zip_extract, zip_open, read_bytes.
    repeat first
      [ apply emits_bind; [|intros ?]
      | apply emits_emit; by intros ?
      | match goal with
        | |- emits _ (match ?x with _ => _ end) => destruct x
        end
      | solve [auto with effects] ]. }
  unfold extract_ninja. destruct (is_mac host) eqn:Hm.
  - destruct dryrun.
    + unfold path_exists, print.
      repeat first
        [ apply emits_bind; [|intros ?]
        | apply emits_emit; by intros ?
        | match goal with
          | |- emits _ (if ?c then _ else _) => destruct c
          end
        | solve [auto with effects] ].
    + apply emits_bind; [apply Hzip|]. intros _.
      unfold path_stat, path_chmod.
      apply emits_bind.
      { apply emits_bind; [apply emits_emit; by intros ?|]. intros _.
        apply emits_bind; [auto with effects|]. intros f.
        destruct (f !! _); auto with effects. }
      intros st. apply emits_bind; [|auto with effects].
      apply emits_emit. intros p m H. inversion H; subst.
      repeat split; auto. rewrite Z.lor_spec. apply orb_true_r.
  - destruct (is_windows host); [|auto with effects].
    destruct dryrun.
    + unfold path_exists, print.
      repeat first
        [ apply emits_bind; [|intros ?]
        | apply emits_emit; by intros ?
        | match goal with
          | |- emits _ (if ?c then _ else _) => destruct c
          end
        | solve [auto with effects] ].
    + apply emits_bind; [apply Hzip|]. intros _. auto with effects.
Qed.

(** X18: permission bits change in one place only.  The one mode change
    [extract_ninja] ever asks for is on macOS, in a real run, on the
    extracted ninja, and the mode it sets has the owner-execute bit; on
    Windows and in every dry run no mode is changed. *)
Theorem extract_ninja_chmod_only_on_mac (dryrun : bool) (w : World)
    (p : Path) (m : Z) :
  In (EvChmod p m) (new_events w (snd (extract_ninja host dryrun w))) ->
  is_mac host = true /\ dryrun = false
  /\ p = joinpath (ninja_dest host) "ninja"
  /\ Z.testbit m 6 = true.
Proof.
  destruct (extract_ninja host dryrun w) as [r w'] eqn:E. cbn [snd].
  destruct (extract_ninja_emits dryrun _ _ _ E) as (evs & L & F).
  rewrite (new_events_app _ _ _ L). intros Hin.
  rewrite List.Forall_forall in F. by apply (F _ Hin).
Qed.

(** [download] logs nothing but these: the reads of the cache check, a
    dry-run message, and in a real run the unlink, the mkdir, the request for
    the URL of the archive, the opening of the target and stream output. *)
Lemma download_emits_gen (P : Event -> Prop) archive dryrun :
  (forall e, is_observation e = true -> P e) ->
  (forall m, dryrun = true -> P (EvPrint m)) ->
  (dryrun = false -> P (EvUnlink (archive_path host archive))) ->
  (dryrun = false -> P (EvMkdir (CACHE_DIR host))) ->
  (dryrun = false -> P (EvHttpGet (url archive))) ->
  (dryrun = false -> P (EvCreate (archive_path host archive))) ->
  (forall e, is_stream_output e = true -> P e) ->
  emits P (download host archive dryrun).
Proof.
  intros Hobs Hpr Hun Hmk Hget Hcr Hout.
  assert (Hfetch : emits P
    (fetch host archive (archive_path host archive) dryrun)).
  { destruct dryrun.
    - unfold fetch, print. apply emits_emit. by apply Hpr.
    - intros w r w' H. apply fetch_real_outcome in H.
      assert (Hall : forall out,
        Forall (fun e => is_stream_output e = true) out -> Forall P out).
      { intros out Ho. eapply Forall_impl; [exact Ho|]. apply Hout. }
      inversion H; subst; cbn [log trace];
        (eexists; split; [reflexivity|]);
        repeat (constructor; [by auto|]); auto. }
  unfold download, path_exists, path_stat, get_sha256, read_bytes,
    path_unlink, print.
  apply emits_bind.
  { apply emits_bind; [apply emits_emit; by apply Hobs|].
    intros _. auto with effects. }
  intros [|]; [|exact Hfetch].
  apply emits_bind.
  { apply emits_bind; [apply emits_emit; by apply Hobs|]. intros _.
    apply emits_bind; [auto with effects|].
    intros f. destruct (f !! _); auto with effects. }
  intros st. apply emits_bind.
  { destruct (st_size st =? size archive)%Z; [|auto with effects].
    apply emits_bind; [|auto with effects].
    apply emits_bind; [|auto with effects].
    apply emits_bind; [apply emits_emit; by apply Hobs|]. intros _.
    apply emits_bind; [auto with effects|].
    intros f. destruct (f !! _) as [[]|]; auto with effects. }
  intros [|]; [auto with effects|].
  apply emits_bind; [|intros _; exact Hfetch].
  destruct dryrun.
  - apply emits_emit. by apply Hpr.
  - apply emits_bind; [apply emits_emit; by apply Hun|]. intros _.
    apply emits_bind; [auto with effects|].
    intros f. destruct (f !! _) as [[]|]; auto with effects.
Qed.

Lemma extract_ninja_events dryrun :
  emits (fun e => is_extract_event e = true) (extract_ninja host dryrun).
Proof.
  unfold extract_ninja, zip_extract, zip_open, read_bytes, path_stat,
    path_chmod, path_exists, print.
  repeat first
    [ apply emits_bind; [|intros ?]
    | apply emits_emit; reflexivity
    | match goal with
      | |- emits _ (match ?x with _ => _ end) => destruct x
      end
    | solve [auto with effects] ].
Qed.

(** The events of the three steps after the downloads. *)
Lemma provisioning_emits (P : Event -> Prop) (args : Args)
    (l : list ArchiveInfo) :
  (forall e, is_extract_event e = true -> P e) ->
  (forall m, P (EvPrint m)) ->
  (dryrun args = false -> nowix args = false -> is_windows host = true ->
   P (EvPopen dotnet_args (ABS_MOZC_SRC_DIR host))) ->
  (dryrun args = false -> nosubmodules args = false ->
   P (EvShell submodule_command)) ->
  emits P
    ((if negb (nowix args) && is_windows host
      then restore_dotnet_tools host (dryrun args) else ret tt) ;;
     (if list_contains l NINJA_WIN || list_contains l NINJA_MAC
      then extract_ninja host (dryrun args) else ret tt) ;;
     (if negb (nosubmodules args)
      then update_submodules host (dryrun args) else ret tt)).
Proof.
  intros Hex Hpr Hpopen Hshell.
  apply emits_bind; [|intros _; apply emits_bind; [|intros _]].
  - destruct (nowix args) eqn:Hw; cbn [negb andb]; [auto with effects|].
    destruct (is_windows host) eqn:Hwin; [|auto with effects].
    unfold restore_dotnet_tools, exec_command, print.
    destruct (dryrun args) eqn:Hd; [by apply emits_emit|].
    apply emits_bind; [apply emits_emit; by apply Hpopen|]. intros _.
    apply emits_bind; [auto with effects|]. intros f.
    destruct (popen_run host _ _ f) as [[f' code]|]; [|auto with effects].
    apply emits_bind; [auto with effects|]. intros _.
    destruct (negb _); auto with effects.
  - destruct (_ || _); [|auto with effects].
    eapply emits_weaken; [|apply extract_ninja_events]. apply Hex.
  - destruct (nosubmodules args) eqn:Hs; cbn [negb]; [auto with effects|].
    unfold update_submodules, subprocess_run, print.
    destruct (dryrun args) eqn:Hd; [by apply emits_emit|].
    apply emits_bind; [apply emits_emit; by apply Hshell|]. intros _.
    apply emits_bind; [auto with effects|]. intros f.
    destruct (shell_run host submodule_command f) as [f' code].
    apply emits_bind; [auto with effects|]. intros _.
    destruct (code =? 0)%Z; auto with effects.
Qed.

Lemma main_emits (P : Event -> Prop) (args : Args) :
  (forall a, In a (select_archives host args) ->
     emits P (download host a (dryrun args))) ->
  (forall e, is_extract_event e = true -> P e) ->
  (forall m, P (EvPrint m)) ->
  (dryrun args = false -> cache_only args = false ->
   nowix args = false -> is_windows host = true ->
   P (EvPopen dotnet_args (ABS_MOZC_SRC_DIR host))) ->
  (dryrun args = false -> cache_only args = false ->
   nosubmodules args = false ->
   P (EvShell submodule_command)) ->
  emits P (main host args).
Proof.
  intros Hdl Hex Hpr Hpopen Hshell. unfold main.
  apply emits_bind; [by apply emits_for_each|]. intros _.
  destruct (cache_only args) eqn:Hc; [auto with effects|].
  apply provisioning_emits; auto.
Qed.

(** X19: the only processes the pipeline ever spawns.  A subprocess that
    [main] starts is either dotnet tool restore, run in the source
    directory, on Windows and without the no-wix flag, or the git submodule
    command, without the no-submodules flag - and neither is started in a
    dry run or a cache-only run. *)
Theorem main_spawns_only_known_commands (args : Args) (w : World)
    (e : Event) :
  In e (new_events w (snd (main host args w))) ->
  is_subprocess e = true ->
  dryrun args = false /\ cache_only args = false
  /\ ((e = EvPopen ["dotnet"; "tool"; "restore"] (ABS_MOZC_SRC_DIR host)
       /\ nowix args = false /\ is_windows host = true)
      \/ (e = EvShell "git submodule update --init --recursive"
          /\ nosubmodules args = false)).
Proof.
  destruct (main host args w) as [r w'] eqn:E. cbn [snd].
  assert (Hem : emits
    (fun e => is_subprocess e = true ->
       dryrun args = false /\ cache_only args = false
       /\ ((e = EvPopen dotnet_args (ABS_MOZC_SRC_DIR host)
            /\ nowix args = false /\ is_windows host = true)
           \/ (e = EvShell submodule_command
               /\ nosubmodules args = false)))
    (main host args)).
  { apply main_emits.
    - intros a _. apply download_emits_gen; try done; by intros [].
    - by intros [].
    - done.
    - intros; split; [done|]. split; [done|]. by left.
    - intros; split; [done|]. split; [done|]. by right. }
  destruct (Hem _ _ _ E) as (evs & L & F).
  rewrite (new_events_app _ _ _ L). intros Hin.
  rewrite List.Forall_forall in F. by apply (F _ Hin).
Qed.

(** X20: the only URLs the pipeline ever contacts.  Every HTTP request of
    [main] is made in a real run and asks for the URL of one of the selected
    archives; with the Qt and ninja archives both switched off, or on a
    platform without archives, there is none. *)
Theorem main_requests_only_selected_urls (args : Args) (w : World)
    (u : string) :
  In (EvHttpGet u) (new_events w (snd (main host args w))) ->
  dryrun args = false
  /\ exists a, In a (select_archives host args) /\ u = url a.
Proof.
  destruct (main host args w) as [r w'] eqn:E. cbn [snd].
  assert (Hem : emits
    (fun e => forall u, e = EvHttpGet u ->
       dryrun args = false
       /\ exists a, In a (select_archives host args) /\ u = url a)
    (main host args)).
  { apply main_emits; try done.
    - intros a Ha. apply download_emits_gen; try done.
      + by intros [].
      + intros Hd u0 Hu. inversion Hu; subst. eauto.
      + by intros [].
    - by intros []. }
  destruct (Hem _ _ _ E) as (evs & L & F).
  rewrite (new_events_app _ _ _ L). intros Hin.
  rewrite List.Forall_forall in F. by apply (F _ Hin).
Qed.

End PipelineMore.

(** ** Scenarios *)

(** An empty cache: the archive is downloaded and the call returns. *)
Example download_into_empty_cache :
  let '(r, w) := download example_linux example_archive false
                   (example_world None) in
  r = Ok tt
  /\ fs w !! example_entry = Some (File ["001"; "002"; "003"]%byte 420)
  /\ filter (fun e => bool_decide (is_stream_output e = false)) (trace w)
     = [EvExists example_entry;
        EvMkdir ["work"; "src"; "third_party_cache"];
        EvHttpGet "https://example.org/dist/foo-1.0.zip";
        EvCreate example_entry].
Proof. vm_compute. repeat split. Qed.

(** Three bytes of the right length and the wrong content: the hash check
    fails, and the file stays. *)
Example download_wrong_content :
  let '(r, w) := download
                   (example_host "posix" "Linux" [["001"; "002"; "004"]]%byte)
                   example_archive false (example_world None) in
  r = Raise (RuntimeError
               "foo-1.0.zip sha256 mismatch. expected=13000 actual=13001")
  /\ fs w !! example_entry = Some (File ["001"; "002"; "004"]%byte 420).
Proof. vm_compute. repeat split. Qed.

(** A dry run of the whole pipeline on macOS, with a stale ninja archive in
    the cache and an extraction destination that exists. *)
Example dry_run_on_mac :
  let '(r, w) := main example_mac (mkArgs true false false false false false)
                   example_mac_world in
  r = Ok tt
  /\ map_to_list (fs w) = map_to_list (fs example_mac_world)
  /\ printed (trace w)
     = ["Download https://download.qt.io/archive/qt/6.8/6.8.0/submodules/qtbase-everywhere-src-6.8.0.tar.xz to /work/src/third_party_cache/qtbase-everywhere-src-6.8.0.tar.xz";
        "dryrun: Verification failed. removing /work/src/third_party_cache/ninja-mac.zip";
        "Download https://github.com/ninja-build/ninja/releases/download/v1.11.0/ninja-mac.zip to /work/src/third_party_cache/ninja-mac.zip";
        "dryrun: shutil.rmtree(r'/work/src/third_party/ninja')";
        "dryrun: Extracting ninja from /work/src/third_party_cache/ninja-mac.zip into /work/src/third_party/ninja";
        "dryrun: subprocess.run(git submodule update --init --recursive, shell=True, check=True)"].
Proof. vm_compute. repeat split. Qed.

(** The same on Windows names the restore and ninja.exe. *)
Example dry_run_on_windows :
  let '(r, w) := main (example_host "nt" "" [])
                   (mkArgs true true true false false false)
                   (example_world None) in
  r = Ok tt
  /\ printed (trace w)
     = ["dryrun: exec_command(['dotnet', 'tool', 'restore'], cwd=/work/src)";
        "dryrun: subprocess.run(git submodule update --init --recursive, shell=True, check=True)"].
Proof. vm_compute. repeat split. Qed.

(** ** The statements at concrete inputs *)

Lemma download_cache_hit_witness :
  exists w',
    download example_linux example_archive true
      (example_world (Some ["001"; "002"; "003"]%byte)) = (Ok tt, w') /\
    fs w' = fs (example_world (Some ["001"; "002"; "003"]%byte)) /\
    fs w' !! archive_path example_linux example_archive
      = Some (File ["001"; "002"; "003"]%byte 420) /\
    ticks w' = ticks (example_world (Some ["001"; "002"; "003"]%byte)) /\
    new_events (example_world (Some ["001"; "002"; "003"]%byte)) w' =
      [EvExists (archive_path example_linux example_archive);
       EvStat (archive_path example_linux example_archive);
       EvRead (archive_path example_linux example_archive)] /\
    Forall (fun e => is_network e = false /\ is_fs_mutation e = false)
      (new_events (example_world (Some ["001"; "002"; "003"]%byte)) w').
Proof.
  apply (download_cache_hit example_linux example_archive true
           (example_world (Some ["001"; "002"; "003"]%byte))
           ["001"; "002"; "003"]%byte 420).
  - vm_compute. reflexivity.
  - reflexivity.
  - reflexivity.
Defined.

Lemma download_replaces_stale_entry_witness :
  fs (example_world (Some ["001"]%byte))
    !! archive_path example_linux example_archive
  = Some (File ["001"]%byte 420)
  /\ stale example_linux example_archive ["001"]%byte
  /\ exists r w' post,
       download example_linux example_archive false
         (example_world (Some ["001"]%byte)) = (r, w') /\
       new_events (example_world (Some ["001"]%byte)) w'
       = (cache_check example_archive
            (archive_path example_linux example_archive)
            (File ["001"]%byte 420)
          ++ EvUnlink (archive_path example_linux example_archive)
          :: EvMkdir (CACHE_DIR example_linux) :: post)%list /\
       (is_dir (fs (example_world (Some ["001"]%byte)))
          (CACHE_DIR example_linux) = true ->
        exists post', post = EvHttpGet (url example_archive) :: post') /\
       (r = Ok tt ->
        exists resp m,
          requests_get example_linux (url example_archive) = Some resp /\
          In (EvHttpGet (url example_archive)) post /\
          fs w' !! archive_path example_linux example_archive
            = Some (File (concat (iter_content resp)) m) /\
          Z.of_nat (length (concat (iter_content resp)))
            = size example_archive /\
          sha256_hexdigest example_linux (concat (iter_content resp))
            = sha256 example_archive).
Proof.
  assert (H1 : fs (example_world (Some ["001"]%byte))
                 !! archive_path example_linux example_archive
               = Some (File ["001"]%byte 420))
    by (vm_compute; reflexivity).
  assert (H2 : stale example_linux example_archive ["001"]%byte)
    by (left; vm_compute; discriminate).
  split; [exact H1|]. split; [exact H2|].
  exact (download_replaces_stale_entry example_linux example_archive
           (example_world (Some ["001"]%byte)) ["001"]%byte 420 H1 H2).
Defined.

Lemma download_size_mismatch_first_witness :
  fst (download example_short example_archive false (mkWorld ∅ [] 0))
  = Raise (RuntimeError (size_mismatch_msg example_archive 2)).
Proof.
  destruct (download_size_mismatch_first example_short example_archive
              (mkWorld ∅ [] 0)
              (snd (download example_short example_archive false
                      (mkWorld ∅ [] 0)))
              (fst (download example_short example_archive false
                      (mkWorld ∅ [] 0)))
              (mkResponse [["001"; "002"]]%byte false)
              eq_refl (surjective_pairing _)) as [Hsize _].
  destruct (Hsize ["001"; "002"]%byte 420) as (_ & _ & Hraise).
  - vm_compute. right. right. left. reflexivity.
  - vm_compute. reflexivity.
  - apply Hraise.
    + reflexivity.
    + vm_compute. discriminate.
Defined.

(** C3, the statement as the specification has it, is not what the code
    does: bytes written that differ from the expected size do not always end
    in the size-mismatch error.  Here the connection breaks after two of the
    three bytes of the archive; the two bytes are in the cache file, and the
    call ends with the request exception. *)
Lemma broken_stream_no_size_error :
  ~ (forall (host : Host) (archive : ArchiveInfo) (w w' : World)
            (r : Res unit) (content : list byte) (mode : Z),
       download host archive false w = (r, w') ->
       In (EvHttpGet (url archive)) (new_events w w') ->
       fs w' !! archive_path host archive = Some (File content mode) ->
       Z.of_nat (length content) <> size archive ->
       exists actual,
         r = Raise (RuntimeError (size_mismatch_msg archive actual))).
Proof.
  intros H.
  destruct (H example_flaky example_archive (example_world None)
              (snd (download example_flaky example_archive false
                      (example_world None)))
              (fst (download example_flaky example_archive false
                      (example_world None)))
              ["001"; "002"]%byte 420) as [actual Ha].
  - apply surjective_pairing.
  - vm_compute. right. right. left. reflexivity.
  - vm_compute. reflexivity.
  - vm_compute. discriminate.
  - vm_compute in Ha. discriminate.
Qed.

Lemma integrity_error_leaves_file_witness :
  exists resp m pre out,
    requests_get example_short (url example_archive) = Some resp /\
    ("foo-1.0.zip size mismatch. expected=3 actual=2"
     = size_mismatch_msg example_archive
         (Z.of_nat (length (concat (iter_content resp))))
     \/ "foo-1.0.zip size mismatch. expected=3 actual=2"
        = sha256_mismatch_msg example_archive
            (sha256_hexdigest example_short (concat (iter_content resp)))) /\
    fs (snd (download example_short example_archive false
               (example_world None)))
      !! archive_path example_short example_archive
      = Some (File (concat (iter_content resp)) m) /\
    new_events (example_world None)
      (snd (download example_short example_archive false
              (example_world None)))
      = (pre ++ EvMkdir (CACHE_DIR example_short)
             :: EvHttpGet (url example_archive)
             :: EvCreate (archive_path example_short example_archive)
             :: out)%list /\
    Forall (fun e => is_stream_output e = true) out /\
    (exists r2 w2 post2,
       download example_short example_archive false
         (snd (download example_short example_archive false
                 (example_world None))) = (r2, w2) /\
       new_events
         (snd (download example_short example_archive false
                 (example_world None))) w2
       = (cache_check example_archive
            (archive_path example_short example_archive)
            (File (concat (iter_content resp)) m)
          ++ EvUnlink (archive_path example_short example_archive)
          :: post2)%list).
Proof.
  apply (integrity_error_leaves_file example_short example_archive
           (example_world None)).
  vm_compute. reflexivity.
Defined.

Lemma extract_ninja_other_platform_witness :
  extract_ninja example_linux false (example_world None)
  = (Ok tt, example_world None)
  /\ new_events (example_world None) (example_world None) = [].
Proof.
  apply (extract_ninja_other_platform example_linux false (example_world None));
    reflexivity.
Defined.

Lemma wrong_size_skips_hash_witness :
  (exists r w' post,
     download example_linux example_archive false
       (example_world (Some ["001"]%byte)) = (r, w') /\
     new_events (example_world (Some ["001"]%byte)) w'
       = EvExists (archive_path example_linux example_archive)
         :: EvStat (archive_path example_linux example_archive)
         :: EvUnlink (archive_path example_linux example_archive)
         :: post /\
     Forall (fun e => is_fetch_event e = true) post /\
     Forall (fun e => forall p, e <> EvRead p)
       (new_events (example_world (Some ["001"]%byte)) w'))
  /\ (forall dryrun0 w0 r0 w0',
        download example_linux example_archive dryrun0 w0 = (r0, w0') ->
        In (EvRead (archive_path example_linux example_archive))
          (new_events w0 w0') ->
        exists n0, fs w0 !! archive_path example_linux example_archive
                   = Some n0
                   /\ st_size n0 = size example_archive).
Proof.
  apply (wrong_size_skips_hash example_linux example_archive
           (example_world (Some ["001"]%byte)) (File ["001"]%byte 420) false).
  - vm_compute. reflexivity.
  - vm_compute. discriminate.
Defined.

(** C7, at a concrete input: a real [extract_ninja] on macOS puts the new
    tool into the destination and leaves what was there before - here the
    file ninja-1.10 - in place, although the dry run on the same state
    announces the removal of the destination with its rmtree message. *)
Theorem extract_ninja_keeps_old_contents :
  fst (extract_ninja example_mac false example_mac_world) = Ok tt /\
  fs (snd (extract_ninja example_mac false example_mac_world))
    !! ["work"; "src"; "third_party"; "ninja"; "ninja"]
    = Some (File ["007"; "008"]%byte 484) /\
  fs (snd (extract_ninja example_mac false example_mac_world))
    !! ["work"; "src"; "third_party"; "ninja"; "ninja-1.10"]
    = Some (File ["009"]%byte 493) /\
  printed (new_events example_mac_world
             (snd (extract_ninja example_mac true example_mac_world)))
    = [rmtree_msg example_mac (ninja_dest example_mac);
       extracting_msg example_mac "ninja"
         (archive_path example_mac NINJA_MAC) (ninja_dest example_mac)].
Proof.
  split; [vm_compute; reflexivity|].
  split; [vm_compute; reflexivity|].
  split; vm_compute; reflexivity.
Qed.

Lemma run_result {A} (p : Res A * World) (r : Res A) :
  fst p = r -> p = (r, snd p).
Proof. intros <-. apply surjective_pairing. Qed.

Lemma download_accepts_only_verified_witness :
  exists content mode,
    fs (snd (download example_linux example_archive false
               (example_world (Some ["001"]%byte))))
      !! archive_path example_linux example_archive
      = Some (File content mode)
    /\ Z.of_nat (length content) = size example_archive
    /\ sha256_hexdigest example_linux content = sha256 example_archive.
Proof.
  apply (download_accepts_only_verified example_linux example_archive
           (example_world (Some ["001"]%byte))).
  apply run_result. vm_compute. reflexivity.
Defined.

Lemma download_twice_is_cache_hit_witness :
  download example_linux example_archive true
    (snd (download example_linux example_archive false (example_world None)))
  = (Ok tt,
     log (snd (download example_linux example_archive false
                 (example_world None)))
       [EvExists (archive_path example_linux example_archive);
        EvStat (archive_path example_linux example_archive);
        EvRead (archive_path example_linux example_archive)]).
Proof.
  apply (download_twice_is_cache_hit example_linux example_archive
           (example_world None)).
  apply run_result. vm_compute. reflexivity.
Defined.

Lemma download_request_fails_witness :
  download example_offline example_archive false
    (example_world (Some ["001"]%byte))
  = (Raise (RequestException (url example_archive)),
     mkWorld (delete (archive_path example_offline example_archive)
                (fs (example_world (Some ["001"]%byte))))
       (trace (example_world (Some ["001"]%byte))
        ++ cache_check example_archive
             (archive_path example_offline example_archive)
             (File ["001"]%byte 420)
        ++ [EvUnlink (archive_path example_offline example_archive);
            EvMkdir (CACHE_DIR example_offline);
            EvHttpGet (url example_archive)])%list
       (ticks (example_world (Some ["001"]%byte)))).
Proof.
  apply (download_request_fails example_offline example_archive
           (example_world (Some ["001"]%byte)) ["001"]%byte 420).
  - vm_compute. reflexivity.
  - vm_compute. reflexivity.
  - left. vm_compute. discriminate.
  - reflexivity.
Defined.

Lemma download_connection_breaks_witness :
  exists w',
    download example_flaky example_archive false (example_world None)
    = (Raise (RequestException (url example_archive)), w')
    /\ fs w' !! archive_path example_flaky example_archive
       = Some (File (concat (iter_content
                               (mkResponse [["001"; "002"]]%byte true)))
                 (new_file_mode example_flaky)).
Proof.
  apply (download_connection_breaks example_flaky example_archive
           (example_world None) (mkResponse [["001"; "002"]]%byte true)).
  - vm_compute. reflexivity.
  - left. vm_compute. reflexivity.
  - reflexivity.
  - reflexivity.
Defined.

Lemma download_silent_without_tty_witness :
  ticks (snd (download example_piped example_archive false
                (example_world None)))
  = ticks (example_world None)
  /\ Forall not_stdout
       (new_events (example_world None)
          (snd (download example_piped example_archive false
                  (example_world None)))).
Proof.
  apply (download_silent_without_tty example_piped example_archive false
           (example_world None)).
  reflexivity.
Defined.

Lemma stream_clears_progress_line_witness :
  exists pre,
    new_events (example_world None)
      (snd (stream example_linux example_archive example_entry
              (example_world None)))
    = (pre ++ [EvStdout (spaces (terminal_columns example_linux) +:+ CR)])%list.
Proof.
  apply (stream_clears_progress_line example_linux example_archive
           example_entry (example_world None)
           (mkResponse [["001"; "002"]; ["003"]]%byte false));
    reflexivity.
Defined.

Lemma main_other_platform_witness :
  select_archives example_linux (mkArgs false false false false false false)
  = []
  /\ main example_linux (mkArgs false false false false false false)
       (example_world None)
     = update_submodules example_linux false (example_world None).
Proof.
  apply (main_other_platform example_linux
           (mkArgs false false false false false false) (example_world None));
    reflexivity.
Defined.

Lemma provisioning_needs_verified_archives_witness :
  exists w1,
    for_each (fun a => download example_registry_mac a false)
      (select_archives example_registry_mac
         (mkArgs false false true false false false))
      (mkWorld ∅ [] 0) = (Ok tt, w1)
    /\ forall a,
         In a (select_archives example_registry_mac
                 (mkArgs false false true false false false)) ->
         cached example_registry_mac a (fs w1).
Proof.
  apply (provisioning_needs_verified_archives example_registry_mac
           false true false false false (mkWorld ∅ [] 0)
           (snd (main example_registry_mac
                   (mkArgs false false true false false false)
                   (mkWorld ∅ [] 0)))
           (fst (main example_registry_mac
                   (mkArgs false false true false false false)
                   (mkWorld ∅ [] 0)))
           (EvShell "git submodule update --init --recursive")).
  - apply surjective_pairing.
  - apply (proj1 (list_elem_of_In _ _)), last_Some_elem_of.
    vm_compute. reflexivity.
  - reflexivity.
Defined.

Lemma cache_only_second_run_witness :
  exists evs,
    main example_registry_mac (mkArgs true false true false false true)
      (snd (main example_registry_mac
              (mkArgs false false true false false true) (mkWorld ∅ [] 0)))
    = (Ok tt,
       log (snd (main example_registry_mac
                   (mkArgs false false true false false true)
                   (mkWorld ∅ [] 0))) evs)
    /\ Forall (fun e => is_observation e = true) evs.
Proof.
  apply (cache_only_second_run example_registry_mac
           true false true false false (mkWorld ∅ [] 0)).
  apply run_result. vm_compute. reflexivity.
Defined.

Lemma extract_ninja_mac_executable_witness :
  exists content md members data m,
    fs example_mac_world !! archive_path example_mac NINJA_MAC
      = Some (File content md)
    /\ zip_members example_mac content = Some members
    /\ zip_find "ninja" members = Some data
    /\ fs (snd (extract_ninja example_mac false example_mac_world))
         !! joinpath (ninja_dest example_mac) "ninja" = Some (File data m)
    /\ Z.testbit m 6 = true.
Proof.
  apply (extract_ninja_mac_executable example_mac example_mac_world).
  - reflexivity.
  - apply run_result. vm_compute. reflexivity.
Defined.

Lemma restore_failure_stops_main_witness :
  main example_windows (mkArgs false true true false false false)
    (example_world None)
  = (Raise (ChildProcessError
              "Failed to execute ['dotnet', 'tool', 'restore']"),
     mkWorld (fs (example_world None))
       (trace (example_world None)
        ++ [EvPopen dotnet_args (ABS_MOZC_SRC_DIR example_windows)])%list
       (ticks (example_world None))).
Proof.
  apply (restore_failure_stops_main example_windows true true false
           (example_world None) (example_world None)
           (fs (example_world None)) 1).
  - reflexivity.
  - reflexivity.
  - reflexivity.
  - discriminate.
Defined.

Lemma extract_ninja_chmod_only_on_mac_witness :
  is_mac example_mac = true /\ false = false
  /\ ["work"; "src"; "third_party"; "ninja"; "ninja"]
     = joinpath (ninja_dest example_mac) "ninja"
  /\ Z.testbit 484 6 = true.
Proof.
  apply (extract_ninja_chmod_only_on_mac example_mac false example_mac_world
           ["work"; "src"; "third_party"; "ninja"; "ninja"] 484).
  vm_compute. right. right. right. left. reflexivity.
Defined.

Lemma main_spawns_only_known_commands_witness :
  false = false /\ false = false
  /\ ((EvPopen ["dotnet"; "tool"; "restore"] ["work"; "src"]
       = EvPopen ["dotnet"; "tool"; "restore"]
           (ABS_MOZC_SRC_DIR example_windows)
       /\ false = false /\ is_windows example_windows = true)
      \/ (EvPopen ["dotnet"; "tool"; "restore"] ["work"; "src"]
          = EvShell "git submodule update --init --recursive"
          /\ false = false)).
Proof.
  apply (main_spawns_only_known_commands example_windows
           (mkArgs false true true false false false) (example_world None)
           (EvPopen ["dotnet"; "tool"; "restore"] ["work"; "src"])).
  - vm_compute. left. reflexivity.
  - reflexivity.
Defined.

Lemma main_requests_only_selected_urls_witness :
  false = false
  /\ exists a,
       In a (select_archives example_mac
               (mkArgs false false true false false false))
       /\ url NINJA_MAC = url a.
Proof.
  apply (main_requests_only_selected_urls example_mac
           (mkArgs false false true false false false) (example_world None)
           (url NINJA_MAC)).
  vm_compute. right. right. left. reflexivity.
Defined.

Lemma download_touches_cache_only_witness :
  fs (snd (download example_linux example_archive false (example_world None)))
    !! ["work"; "src"; "third_party"; "ninja"]
  = fs (example_world None) !! ["work"; "src"; "third_party"; "ninja"].
Proof.
  apply (proj2 (download_touches_cache_only example_linux example_archive
                  false (example_world None))).
  - vm_compute. discriminate.
  - intros [k Hk]. vm_compute in Hk. discriminate Hk.
Defined.

Lemma print_line_fits_terminal_witness :
  exists text,
    print_line example_linux (Impl 0) "foo-1.0.zip" (mkWorld ∅ [] 1)
    = (Ok (Impl 30000000), mkWorld ∅ [EvStdout (text +:+ CR)] 2)
    /\ String.length text = 24%nat
    /\ ((11 <= 24)%nat -> text = "foo-1.0.zip" +:+ spaces 13)
    /\ ((24 <= 11)%nat -> text = substring 0 24 "foo-1.0.zip").
Proof.
  apply (proj2 (print_line_fits_terminal example_linux 0 "foo-1.0.zip"
                  (mkWorld ∅ [] 1))).
  simpl. lia.
Defined.
